(** * ObsidianGenie: the chat plugin of [main.ts], embedded and verified

    The plugin class [GeminiChatbotPlugin] is embedded shallowly:
    - JavaScript strings are lists of UTF-16 code units ([N]);
    - the platform functions [btoa] / [atob] and [String.prototype.trim]
      follow their WHATWG / ECMAScript definitions;
    - the plugin object is a record, its methods are computations in a
      small state-and-exception monad;
    - an [async] method is cut at its [await]: the part run by the caller,
      and the continuation run when the promise settles. *)

From Stdlib Require Import List NArith ZArith Bool Lia String Ascii
  Permutation.
Import ListNotations.
Local Open Scope N_scope.

(* ================================================================== *)
(** * JavaScript strings *)
(* ================================================================== *)

Module JS.

(** A string value: its sequence of UTF-16 code units. *)
Definition codeunit := N.
Definition jsstring := list codeunit.

(** A source literal without escapes. *)
Definition lit (s : string) : jsstring :=
  map N_of_ascii (list_ascii_of_string s).

Definition LF : codeunit := 10.

Definition codeunit_eqb : codeunit -> codeunit -> bool := N.eqb.

Fixpoint eqb (s t : jsstring) : bool :=
  match s, t with
  | [], [] => true
  | c :: s', d :: t' => codeunit_eqb c d && eqb s' t'
  | _, _ => false
  end.

(** [ToBoolean] on a string: only the empty string is falsy. *)
Definition truthy (s : jsstring) : bool :=
  match s with [] => false | _ :: _ => true end.

(** [ToBoolean] on [string | null]. *)
Definition truthy_opt (o : option jsstring) : bool :=
  match o with None => false | Some s => truthy s end.

(** ECMAScript [WhiteSpace] and [LineTerminator] code points, the ones
    [trim] strips. *)
Definition is_space (c : codeunit) : bool :=
  ((9 <=? c) && (c <=? 13))
  || (c =? 32) || (c =? 160) || (c =? 5760)
  || ((8192 <=? c) && (c <=? 8202))
  || (c =? 8232) || (c =? 8233) || (c =? 8239) || (c =? 8287)
  || (c =? 12288) || (c =? 65279).

Fixpoint trimStart (s : jsstring) : jsstring :=
  match s with
  | [] => []
  | c :: s' => if is_space c then trimStart s' else s
  end.

Definition trimEnd (s : jsstring) : jsstring := rev (trimStart (rev s)).

Definition trim (s : jsstring) : jsstring := trimEnd (trimStart s).

(** [key.split('').reverse().join('')]: splitting on the empty string
    yields one element per code unit. *)
Definition reverse (s : jsstring) : jsstring := rev s.

(** [t] occurs in [s] verbatim. *)
Definition substring_of (t s : jsstring) : Prop :=
  exists pre post, s = pre ++ t ++ post.

(** [t] occurs, and after it [u] occurs. *)
Definition occurs_then (t u s : jsstring) : Prop :=
  exists pre mid post, s = pre ++ t ++ mid ++ u ++ post.

End JS.
Import JS.

(* ================================================================== *)
(** * Base64: the platform's [btoa] and [atob] *)
(* ================================================================== *)

Module Base64.

Definition alphabet : jsstring :=
  lit "ABCDEFGHIJKLMNOPQRSTUVWXYZabcdefghijklmnopqrstuvwxyz0123456789+/".

Definition pad : codeunit := 61.

Definition sextet_char (v : N) : codeunit := nth (N.to_nat v) alphabet 0.

Fixpoint index_of (c : codeunit) (l : jsstring) : option N :=
  match l with
  | [] => None
  | d :: l' => if c =? d then Some 0
               else option_map N.succ (index_of c l')
  end.

Definition char_sextet (c : codeunit) : option N := index_of c alphabet.

(** Three bytes make four sextets; a last group of one or two bytes is
    padded with [=]. *)
Fixpoint encode (bytes : jsstring) : jsstring :=
  match bytes with
  | [] => []
  | [a] =>
      [sextet_char (a / 4); sextet_char ((a mod 4) * 16); pad; pad]
  | [a; b] =>
      [sextet_char (a / 4); sextet_char ((a mod 4) * 16 + b / 16);
       sextet_char ((b mod 16) * 4); pad]
  | a :: b :: c :: rest =>
      sextet_char (a / 4) :: sextet_char ((a mod 4) * 16 + b / 16)
        :: sextet_char ((b mod 16) * 4 + c / 64) :: sextet_char (c mod 64)
        :: encode rest
  end.

(** [btoa(data)]: throws [InvalidCharacterError] ([None]) when a code unit
    is above U+00FF. *)
Definition btoa (data : jsstring) : option jsstring :=
  if forallb (fun c => c <=? 255) data then Some (encode data) else None.

Definition ascii_whitespace (c : codeunit) : bool :=
  (c =? 9) || (c =? 10) || (c =? 12) || (c =? 13) || (c =? 32).

Definition is_pad_tail (l : jsstring) : bool :=
  match l with
  | [a] => a =? pad
  | [a; b] => (a =? pad) && (b =? pad)
  | _ => false
  end.

(** Remove one or two [=] at the end of the data. *)
Fixpoint strip_padding (l : jsstring) : jsstring :=
  match l with
  | [] => []
  | c :: l' => if is_pad_tail l then [] else c :: strip_padding l'
  end.

Fixpoint sextets (l : jsstring) : option (list N) :=
  match l with
  | [] => Some []
  | c :: l' =>
      match char_sextet c, sextets l' with
      | Some v, Some vs => Some (v :: vs)
      | _, _ => None
      end
  end.

(** Four sextets make three bytes; of a last group of three or two
    sextets the 2 or 4 low bits are discarded. *)
Fixpoint decode (vs : list N) : jsstring :=
  match vs with
  | a :: b :: c :: d :: rest =>
      (a * 4 + b / 16) :: ((b mod 16) * 16 + c / 4) :: ((c mod 4) * 64 + d)
        :: decode rest
  | [a; b; c] => [a * 4 + b / 16; (b mod 16) * 16 + c / 4]
  | [a; b] => [a * 4 + b / 16]
  | _ => []
  end.

Definition len (l : jsstring) : N := N.of_nat (List.length l).

(** [atob(data)], the forgiving-base64 decode: ASCII whitespace is
    dropped, padding is removed when the length is a multiple of four, and
    a length of 1 modulo 4 or a character outside the alphabet throws
    [InvalidCharacterError] ([None]). *)
Definition atob (data : jsstring) : option jsstring :=
  let d1 := filter (fun c => negb (ascii_whitespace c)) data in
  let d2 := if len d1 mod 4 =? 0 then strip_padding d1 else d1 in
  if len d2 mod 4 =? 1 then None
  else option_map decode (sextets d2).

(** A sextet survives the alphabet, and its character is neither
    padding nor white space. *)
Definition sextet_check (v : N) : bool :=
  match char_sextet (sextet_char v) with
  | Some w => w =? v
  | None => false
  end
  && negb (sextet_char v =? pad)
  && negb (ascii_whitespace (sextet_char v)).

(** What [atob] needs of the text [encode] writes. *)
Record decodable (bytes text : jsstring) : Prop := {
  no_whitespace : filter (fun c => negb (ascii_whitespace c)) text = text;
  whole_groups : len text mod 4 = 0;
  stripped_length : len (strip_padding text) mod 4 <> 1;
  decodes : option_map decode (sextets (strip_padding text)) = Some bytes
}.

End Base64.

(* ================================================================== *)
(** * Credential transform *)
(* ================================================================== *)

(** [encryptApiKey(key) = btoa(key.split('').reverse().join(''))] *)
Definition encryptApiKey (key : jsstring) : option jsstring :=
  Base64.btoa (reverse key).

(** [decryptApiKey(encryptedKey) =
     atob(encryptedKey).split('').reverse().join('')] *)
Definition decryptApiKey (encryptedKey : jsstring) : option jsstring :=
  option_map reverse (Base64.atob encryptedKey).

(** [decryptApiKey(encryptApiKey(s))] and [encryptApiKey(decryptApiKey(s))];
    [None] when one of the two throws. *)
Definition reveal_obfuscate (s : jsstring) : option jsstring :=
  match encryptApiKey s with
  | Some stored => decryptApiKey stored
  | None => None
  end.

Definition obfuscate_reveal (s : jsstring) : option jsstring :=
  match decryptApiKey s with
  | Some plain => encryptApiKey plain
  | None => None
  end.

(** Printable ASCII, U+0020 to U+007E. *)
Definition printable (s : jsstring) : Prop :=
  Forall (fun c => 32 <= c <= 126) s.

Definition latin1 (s : jsstring) : Prop :=
  Forall (fun c => c <= 255) s.

(* ================================================================== *)
(** * The panel's DOM and the plugin object *)
(* ================================================================== *)

(** [interface ChatMessage] *)
Inductive Role := user | bot.

Record ChatMessage := {
  role : Role;
  content : jsstring;
  timestamp : N
}.

(** The classes given to the children of [.gemini-chat-messages]:
    [gemini-message-${role}], [gemini-message-error], [typing-indicator]. *)
Inductive ClassName :=
| gemini_message (r : Role)
| gemini_message_error
| typing_indicator.

(** What an element holds. *)
Inductive Inner :=
| Text (t : jsstring)        (* [el.textContent = t] *)
| Markdown (src : jsstring)  (* a div with [MarkdownRenderer]'s output for [src] *)
| Dots.                      (* the three [<span>]s of the typing indicator *)

(** A [div] made by [document.createElement]; [uid] is its identity. *)
Record Element := {
  uid : nat;
  className : ClassName;
  inner : Inner
}.

Inductive Display := display_unset | none | flex | block.

Record TextArea := {
  value : jsstring;
  placeholder : jsstring;
  focused : bool
}.

(** [TFile], as far as the plugin reads it. *)
Record TFile := {
  basename : jsstring
}.

(** [new GeminiService(decryptedKey)]; the class itself lives in
    [src/services/GeminiService] and is only called here. *)
Record GeminiService := {
  service_key : jsstring
}.

(** Modelled from the spec: the Model Client (class [GeminiService]) is
    called with a prompt, or with a text and a target language, and each
    call returns a promise of the model's text that may fail. *)
Inductive Call :=
| sendMessage (prompt : jsstring)
| translateContent (text language : jsstring).

(** How a promise settles. *)
Inductive Settled :=
| Fulfilled (v : jsstring)
| Rejected.

(** What becomes of the promise that [addMessageToChat] returns: it is
    dropped by the caller, or awaited inside the [try] of [handleMessage],
    whose [catch] knows the typing indicator. *)
Inductive Awaiter :=
| dropped
| awaited_in_try (typingIndicator : Element).

(** Work that waits for the outside world. *)
Inductive Task :=
| handleMessage_awaiting (typingIndicator : Element)
    (* [handleMessage] at [await this.geminiService.sendMessage(..)] *)
| translate_awaiting
    (* [translateContent(..).then(..).catch(..)] *)
| vaultRead_awaiting
    (* [this.app.vault.read(activeFile).then(..)] *)
| languageModal_open (text : jsstring)
    (* [new LanguageSelectionModal(this.app, callback).open()] *)
| renderMarkdown_awaiting (n : nat) (src : jsstring) (a : Awaiter)
    (* [addMessageToChat] at [await MarkdownRenderer.renderMarkdown(..)],
       holding the element of identity [n] it has built for [src] *)
| saveSettings_awaiting (snapshot : jsstring).
    (* the key field's [onChange] at [await this.plugin.saveSettings()],
       [snapshot] being the key handed to [saveData] *)

Inductive Error := InvalidCharacterError | RejectedPromise | TypeError.

(** The plugin's fields, the parts of the panel they point to, and the
    world the plugin talks to. *)
Record Plugin := {
  settings_apiKey : jsstring;
  geminiService : option GeminiService;
  messagesContainer : option (list Element);   (* its child nodes *)
  inputField : option TextArea;
  currentFileContent : option jsstring;
  chatContainer_display : Display;
  suggestedActions_display : Display;
  currentFile_header : Display * jsstring;
  (* the world *)
  workspace_activeFile : option TFile;
  Date_now : N;
  next_uid : nat;
  remote : list Call;          (* calls made on the service, oldest first *)
  tasks : list Task;           (* suspended work, oldest first *)
  console : list jsstring;     (* [console.error] lines *)
  saved_apiKey : option jsstring   (* the key in the plugin's saved data *)
}.

Definition with_apiKey (k : jsstring) (p : Plugin) : Plugin :=
  {| settings_apiKey := k; geminiService := geminiService p;
     messagesContainer := messagesContainer p; inputField := inputField p;
     currentFileContent := currentFileContent p;
     chatContainer_display := chatContainer_display p;
     suggestedActions_display := suggestedActions_display p;
     currentFile_header := currentFile_header p;
     workspace_activeFile := workspace_activeFile p;
     Date_now := Date_now p; next_uid := next_uid p; remote := remote p;
     tasks := tasks p; console := console p;
     saved_apiKey := saved_apiKey p |}.

Definition with_geminiService (g : option GeminiService) (p : Plugin) : Plugin :=
  {| settings_apiKey := settings_apiKey p; geminiService := g;
     messagesContainer := messagesContainer p; inputField := inputField p;
     currentFileContent := currentFileContent p;
     chatContainer_display := chatContainer_display p;
     suggestedActions_display := suggestedActions_display p;
     currentFile_header := currentFile_header p;
     workspace_activeFile := workspace_activeFile p;
     Date_now := Date_now p; next_uid := next_uid p; remote := remote p;
     tasks := tasks p; console := console p;
     saved_apiKey := saved_apiKey p |}.

Definition with_messagesContainer (m : option (list Element)) (p : Plugin) : Plugin :=
  {| settings_apiKey := settings_apiKey p;
     geminiService := geminiService p; messagesContainer := m;
     inputField := inputField p;
     currentFileContent := currentFileContent p;
     chatContainer_display := chatContainer_display p;
     suggestedActions_display := suggestedActions_display p;
     currentFile_header := currentFile_header p;
     workspace_activeFile := workspace_activeFile p;
     Date_now := Date_now p; next_uid := next_uid p; remote := remote p;
     tasks := tasks p; console := console p;
     saved_apiKey := saved_apiKey p |}.

Definition with_inputField (f : option TextArea) (p : Plugin) : Plugin :=
  {| settings_apiKey := settings_apiKey p;
     geminiService := geminiService p;
     messagesContainer := messagesContainer p; inputField := f;
     currentFileContent := currentFileContent p;
     chatContainer_display := chatContainer_display p;
     suggestedActions_display := suggestedActions_display p;
     currentFile_header := currentFile_header p;
     workspace_activeFile := workspace_activeFile p;
     Date_now := Date_now p; next_uid := next_uid p; remote := remote p;
     tasks := tasks p; console := console p;
     saved_apiKey := saved_apiKey p |}.

Definition with_currentFileContent (c : option jsstring) (p : Plugin) : Plugin :=
  {| settings_apiKey := settings_apiKey p;
     geminiService := geminiService p;
     messagesContainer := messagesContainer p; inputField := inputField p;
     currentFileContent := c;
     chatContainer_display := chatContainer_display p;
     suggestedActions_display := suggestedActions_display p;
     currentFile_header := currentFile_header p;
     workspace_activeFile := workspace_activeFile p;
     Date_now := Date_now p; next_uid := next_uid p; remote := remote p;
     tasks := tasks p; console := console p;
     saved_apiKey := saved_apiKey p |}.

Definition with_chatContainer_display (d : Display) (p : Plugin) : Plugin :=
  {| settings_apiKey := settings_apiKey p;
     geminiService := geminiService p;
     messagesContainer := messagesContainer p; inputField := inputField p;
     currentFileContent := currentFileContent p;
     chatContainer_display := d;
     suggestedActions_display := suggestedActions_display p;
     currentFile_header := currentFile_header p;
     workspace_activeFile := workspace_activeFile p;
     Date_now := Date_now p; next_uid := next_uid p; remote := remote p;
     tasks := tasks p; console := console p;
     saved_apiKey := saved_apiKey p |}.

Definition with_suggestedActions_display (d : Display) (p : Plugin) : Plugin :=
  {| settings_apiKey := settings_apiKey p;
     geminiService := geminiService p;
     messagesContainer := messagesContainer p; inputField := inputField p;
     currentFileContent := currentFileContent p;
     chatContainer_display := chatContainer_display p;
     suggestedActions_display := d;
     currentFile_header := currentFile_header p;
     workspace_activeFile := workspace_activeFile p;
     Date_now := Date_now p; next_uid := next_uid p; remote := remote p;
     tasks := tasks p; console := console p;
     saved_apiKey := saved_apiKey p |}.

Definition with_currentFile_header (h : Display * jsstring) (p : Plugin) : Plugin :=
  {| settings_apiKey := settings_apiKey p;
     geminiService := geminiService p;
     messagesContainer := messagesContainer p; inputField := inputField p;
     currentFileContent := currentFileContent p;
     chatContainer_display := chatContainer_display p;
     suggestedActions_display := suggestedActions_display p;
     currentFile_header := h;
     workspace_activeFile := workspace_activeFile p;
     Date_now := Date_now p; next_uid := next_uid p; remote := remote p;
     tasks := tasks p; console := console p;
     saved_apiKey := saved_apiKey p |}.

Definition with_world (f : option TFile) (t : N) (p : Plugin) : Plugin :=
  {| settings_apiKey := settings_apiKey p;
     geminiService := geminiService p;
     messagesContainer := messagesContainer p; inputField := inputField p;
     currentFileContent := currentFileContent p;
     chatContainer_display := chatContainer_display p;
     suggestedActions_display := suggestedActions_display p;
     currentFile_header := currentFile_header p;
     workspace_activeFile := f; Date_now := t; next_uid := next_uid p;
     remote := remote p; tasks := tasks p; console := console p;
     saved_apiKey := saved_apiKey p |}.

Definition with_next_uid (n : nat) (p : Plugin) : Plugin :=
  {| settings_apiKey := settings_apiKey p;
     geminiService := geminiService p;
     messagesContainer := messagesContainer p; inputField := inputField p;
     currentFileContent := currentFileContent p;
     chatContainer_display := chatContainer_display p;
     suggestedActions_display := suggestedActions_display p;
     currentFile_header := currentFile_header p;
     workspace_activeFile := workspace_activeFile p;
     Date_now := Date_now p; next_uid := n; remote := remote p;
     tasks := tasks p; console := console p;
     saved_apiKey := saved_apiKey p |}.

Definition with_remote (r : list Call) (p : Plugin) : Plugin :=
  {| settings_apiKey := settings_apiKey p;
     geminiService := geminiService p;
     messagesContainer := messagesContainer p; inputField := inputField p;
     currentFileContent := currentFileContent p;
     chatContainer_display := chatContainer_display p;
     suggestedActions_display := suggestedActions_display p;
     currentFile_header := currentFile_header p;
     workspace_activeFile := workspace_activeFile p;
     Date_now := Date_now p; next_uid := next_uid p; remote := r;
     tasks := tasks p; console := console p;
     saved_apiKey := saved_apiKey p |}.

Definition with_tasks (t : list Task) (p : Plugin) : Plugin :=
  {| settings_apiKey := settings_apiKey p;
     geminiService := geminiService p;
     messagesContainer := messagesContainer p; inputField := inputField p;
     currentFileContent := currentFileContent p;
     chatContainer_display := chatContainer_display p;
     suggestedActions_display := suggestedActions_display p;
     currentFile_header := currentFile_header p;
     workspace_activeFile := workspace_activeFile p;
     Date_now := Date_now p; next_uid := next_uid p; remote := remote p;
     tasks := t; console := console p; saved_apiKey := saved_apiKey p |}.

Definition with_console (c : list jsstring) (p : Plugin) : Plugin :=
  {| settings_apiKey := settings_apiKey p;
     geminiService := geminiService p;
     messagesContainer := messagesContainer p; inputField := inputField p;
     currentFileContent := currentFileContent p;
     chatContainer_display := chatContainer_display p;
     suggestedActions_display := suggestedActions_display p;
     currentFile_header := currentFile_header p;
     workspace_activeFile := workspace_activeFile p;
     Date_now := Date_now p; next_uid := next_uid p; remote := remote p;
     tasks := tasks p; console := c; saved_apiKey := saved_apiKey p |}.

Definition with_saved_apiKey (k : option jsstring) (p : Plugin) : Plugin :=
  {| settings_apiKey := settings_apiKey p;
     geminiService := geminiService p;
     messagesContainer := messagesContainer p; inputField := inputField p;
     currentFileContent := currentFileContent p;
     chatContainer_display := chatContainer_display p;
     suggestedActions_display := suggestedActions_display p;
     currentFile_header := currentFile_header p;
     workspace_activeFile := workspace_activeFile p;
     Date_now := Date_now p; next_uid := next_uid p; remote := remote p;
     tasks := tasks p; console := console p; saved_apiKey := k |}.

(* ================================================================== *)
(** * Method bodies: state and exceptions *)
(* ================================================================== *)

Inductive Completion (A : Type) :=
| Normal (a : A)
| Throw (e : Error).
Arguments Normal {A} a.
Arguments Throw {A} e.

Definition M (A : Type) : Type := Plugin -> Completion A * Plugin.

Definition ret {A} (a : A) : M A := fun p => (Normal a, p).

Definition bind {A B} (m : M A) (k : A -> M B) : M B :=
  fun p =>
    match m p with
    | (Normal a, p') => k a p'
    | (Throw e, p') => (Throw e, p')
    end.

Definition throw {A} (e : Error) : M A := fun p => (Throw e, p).

(** [try { body } catch (error) { handler }]: what [body] did before it
    threw stays done. *)
Definition try_catch {A} (body : M A) (handler : Error -> M A) : M A :=
  fun p =>
    match body p with
    | (Normal a, p') => (Normal a, p')
    | (Throw e, p') => handler e p'
    end.

Definition this : M Plugin := fun p => (Normal p, p).

Definition assign (f : Plugin -> Plugin) : M unit := fun p => (Normal tt, f p).

Declare Scope method_scope.
Delimit Scope method_scope with method.
Notation "x <- m ;; k" := (bind m (fun x => k))
  (at level 61, m at next level, right associativity) : method_scope.
Notation "m ;; k" := (bind m (fun _ => k))
  (at level 61, right associativity) : method_scope.
Local Open Scope method_scope.

(** The state a method leaves, and how it completes. *)
Definition after {A} (m : M A) (p : Plugin) : Plugin := snd (m p).
Definition completion {A} (m : M A) (p : Plugin) : Completion A := fst (m p).

(** [await promise], once the promise has settled. *)
Definition await (s : Settled) : M jsstring :=
  match s with
  | Fulfilled v => ret v
  | Rejected => throw RejectedPromise
  end.

(** A platform function that may throw. *)
Definition native {A} (r : option A) : M A :=
  match r with
  | Some a => ret a
  | None => throw InvalidCharacterError
  end.

Definition call (c : Call) : M unit :=
  assign (fun p => with_remote (remote p ++ [c]) p).

Definition suspend (t : Task) : M unit :=
  assign (fun p => with_tasks (tasks p ++ [t]) p).

Definition console_error (line : jsstring) : M unit :=
  assign (fun p => with_console (console p ++ [line]) p).

(** [document.createElement('div')], then its class and content. *)
Definition createElement (c : ClassName) (i : Inner) : M Element :=
  p <- this ;;
  assign (with_next_uid (S (next_uid p))) ;;
  ret {| uid := next_uid p; className := c; inner := i |}.

Definition now : M N := p <- this ;; ret (Date_now p).

(* ================================================================== *)
(** * The methods of [GeminiChatbotPlugin] *)
(* ================================================================== *)

Definition element_eqb_class (c d : ClassName) : bool :=
  match c, d with
  | gemini_message user, gemini_message user => true
  | gemini_message bot, gemini_message bot => true
  | gemini_message_error, gemini_message_error => true
  | typing_indicator, typing_indicator => true
  | _, _ => false
  end.

(** Node identity: the same [uid] on a node of the same kind. *)
Definition same_node (e f : Element) : bool :=
  Nat.eqb (uid e) (uid f) && element_eqb_class (className e) (className f).

(** [this.messagesContainer.appendChild(el)] *)
Definition appendChild (el : Element) (p : Plugin) : Plugin :=
  match messagesContainer p with
  | Some kids => with_messagesContainer (Some (kids ++ [el])) p
  | None => p
  end.

(** [el.remove()]: detaches [el] from its parent, if it has one. *)
Definition remove (el : Element) : M unit :=
  assign (fun p =>
    match messagesContainer p with
    | Some kids =>
        with_messagesContainer
          (Some (filter (fun k => negb (same_node k el)) kids)) p
    | None => p
    end).

(** [toggleSuggestedActions(show)] *)
Definition toggleSuggestedActions (show : bool) : M unit :=
  assign (with_suggestedActions_display (if show then block else none)).

(** [addMessageToChat(message)] up to its [await]: a user message is
    appended at once; for a bot message the element is built and the method
    waits for [MarkdownRenderer.renderMarkdown]. [a] tells what the caller
    does with the promise returned. The scroll position is not modelled. *)
Definition addMessageToChat (message : ChatMessage) (a : Awaiter) : M unit :=
  p <- this ;;
  match messagesContainer p with
  | None => ret tt
  | Some _ =>
      match role message with
      | bot =>
          messageEl <- createElement (gemini_message bot)
                         (Markdown (content message)) ;;
          suspend (renderMarkdown_awaiting (uid messageEl) (content message) a)
      | user =>
          messageEl <- createElement (gemini_message user)
                         (Text (content message)) ;;
          assign (appendChild messageEl)
      end
  end.

(** [addErrorMessage(message)] *)
Definition addErrorMessage (message : jsstring) : M unit :=
  p <- this ;;
  match messagesContainer p with
  | None => ret tt
  | Some _ =>
      errorEl <- createElement gemini_message_error (Text message) ;;
      assign (appendChild errorEl)
  end.

(** The template literal of [handleMessage]. *)
Definition contextTemplate (fileContent message : jsstring) : jsstring :=
  lit "Context from current note:" ++ [LF] ++ fileContent
    ++ [LF; LF] ++ lit "User question: " ++ message.

(** [this.currentFileContent ? `Context from ..` : message] *)
Definition contextMessage_of (fileContent : option jsstring)
    (message : jsstring) : jsstring :=
  match fileContent with
  | Some text => if truthy text then contextTemplate text message else message
  | None => message
  end.

Definition failureText : jsstring := lit "Failed to get response from Gemini".

(** [handleMessage(message)] up to its [await]. *)
Definition handleMessage (message : jsstring) : M unit :=
  p <- this ;;
  match geminiService p with
  | None => ret tt
  | Some _ =>
      if negb (truthy (trim message)) then ret tt
      else
        toggleSuggestedActions false ;;
        p <- this ;;
        let contextMessage := contextMessage_of (currentFileContent p) message in
        t <- now ;;
        let userMessage :=
          {| role := user; content := message; timestamp := t |} in
        addMessageToChat userMessage dropped ;;
        typingIndicator <- createElement typing_indicator Dots ;;
        assign (appendChild typingIndicator) ;;
        call (sendMessage contextMessage) ;;
        suspend (handleMessage_awaiting typingIndicator)
  end.

(** [handleMessage] from its [await] on, when the promise of
    [sendMessage] has settled, up to [await this.addMessageToChat(..)]. *)
Definition handleMessage_resume (typingIndicator : Element) (s : Settled)
  : M unit :=
  try_catch
    (response <- await s ;;
     remove typingIndicator ;;
     t <- now ;;
     let botMessage :=
       {| role := bot; content := response; timestamp := t |} in
     addMessageToChat botMessage (awaited_in_try typingIndicator))
    (fun error =>
       remove typingIndicator ;;
       addErrorMessage failureText).

(** [this.messagesContainer.appendChild(messageEl)] where nothing guards
    it: on a container that is [null] it throws. *)
Definition messagesContainer_appendChild (messageEl : Element) : M unit :=
  p <- this ;;
  match messagesContainer p with
  | Some _ => assign (appendChild messageEl)
  | None => throw TypeError
  end.

(** [addMessageToChat] from its [await] on, when the rendering has
    settled: the element built before is appended. A rendering that fails
    rejects the promise of [addMessageToChat]: awaited in the [try] of
    [handleMessage] it reaches the [catch]; dropped, it is handled by
    nobody. *)
Definition renderMarkdown_settled (n : nat) (src : jsstring) (a : Awaiter)
    (s : Settled) : M unit :=
  let messageEl :=
    {| uid := n; className := gemini_message bot; inner := Markdown src |} in
  match a with
  | awaited_in_try typingIndicator =>
      try_catch
        (_ <- await s ;;
         messagesContainer_appendChild messageEl)
        (fun error =>
           remove typingIndicator ;;
           addErrorMessage failureText)
  | dropped =>
      _ <- await s ;;
      messagesContainer_appendChild messageEl
  end.

(** [showLanguageSelectionModal(content)]: the modal opens and keeps the
    callback. *)
Definition showLanguageSelectionModal (text : jsstring) : M unit :=
  suspend (languageModal_open text).

(** The callback given to [LanguageSelectionModal]. *)
Definition languageSelected (text language : jsstring) : M unit :=
  p <- this ;;
  match geminiService p with
  | Some _ =>
      call (translateContent text language) ;;
      suspend translate_awaiting
  | None => ret tt
  end.

(** The [.then(..)] and [.catch(..)] on the promise of [translateContent];
    the callback of [.then] does not return the promise of
    [addMessageToChat]. *)
Definition translate_settled (s : Settled) : M unit :=
  match s with
  | Fulfilled translation =>
      t <- now ;;
      addMessageToChat
        {| role := bot; content := translation; timestamp := t |} dropped
  | Rejected =>
      addErrorMessage (lit "Translation failed") ;;
      console_error (lit "Translation error:")
  end.

Definition summarizeTemplate (fileContent : jsstring) : jsstring :=
  lit "Please provide a concise summary of this content:" ++ [LF] ++ fileContent.

Definition actionItemsTemplate (fileContent : jsstring) : jsstring :=
  lit "Please analyze this content and list all action items, tasks, and to-dos:"
    ++ [LF] ++ fileContent.

(** The click listener of an [.action-button] whose [textContent] is
    [textContent]. *)
Definition actionButton_click (textContent : jsstring) : M unit :=
  let action := trim textContent in
  p <- this ;;
  match currentFileContent p with
  | Some fileContent =>
      if truthy fileContent then
        toggleSuggestedActions false ;;
        if eqb action (lit "Summarize this page") then
          handleMessage (summarizeTemplate fileContent)
        else if eqb action (lit "Ask about this page") then
          match inputField p with
          | Some f =>
              assign (with_inputField
                (Some {| value := value f;
                         placeholder := lit "Ask a question about this page...";
                         focused := true |}))
          | None => ret tt
          end
        else if eqb action (lit "Find action items") then
          handleMessage (actionItemsTemplate fileContent)
        else if eqb action (lit "Translate to") then
          showLanguageSelectionModal fileContent
        else ret tt
      else addErrorMessage (lit "No active file selected")
  | None => addErrorMessage (lit "No active file selected")
  end.

(** The text of the four buttons as [addChatContainer] writes them: the
    icon's [<span>], a line break with the indentation, the label. *)
Definition TAB : codeunit := 9.

Definition button_textContent (icon label : jsstring) : jsstring :=
  [LF] ++ repeat TAB 5 ++ icon ++ [LF] ++ repeat TAB 5 ++ label
    ++ [LF] ++ repeat TAB 4.

Inductive ActionButton := Summarize | AskAbout | FindActionItems | TranslateTo.

Definition textContent_of (b : ActionButton) : jsstring :=
  match b with
  | Summarize =>
      button_textContent [55357; 56541] (lit "Summarize this page")
  | AskAbout =>
      button_textContent [55357; 56589] (lit "Ask about this page")
  | FindActionItems =>
      button_textContent [10003] (lit "Find action items")
  | TranslateTo =>
      button_textContent [55356; 57104] (lit "Translate to")
  end.

(** The click listener of [.send-button]. *)
Definition sendButton_click : M unit :=
  p <- this ;;
  match inputField p with
  | Some f =>
      let message := trim (value f) in
      if truthy message then
        handleMessage message ;;
        assign (with_inputField
          (Some {| value := []; placeholder := placeholder f;
                   focused := focused f |}))
      else ret tt
  | None => ret tt
  end.

(** The [keydown] listener of the input field. *)
Definition inputField_keydown (key : jsstring) (shiftKey : bool) : M unit :=
  if eqb key (lit "Enter") && negb shiftKey then sendButton_click else ret tt.

(** [updateChatHeader()] *)
Definition updateChatHeader : M unit :=
  p <- this ;;
  match workspace_activeFile p with
  | Some activeFile => assign (with_currentFile_header (block, basename activeFile))
  | None => assign (with_currentFile_header (none, snd (currentFile_header p)))
  end.

(** [toggleChatContainer()]; the panel's position is not modelled. *)
Definition toggleChatContainer : M unit :=
  p <- this ;;
  let isVisible :=
    match chatContainer_display p with none => false | _ => true end in
  assign (with_chatContainer_display (if isVisible then none else flex)) ;;
  if negb isVisible then
    (match messagesContainer p with
     | Some _ => assign (with_messagesContainer (Some []))
     | None => ret tt
     end) ;;
    updateChatHeader ;;
    (match workspace_activeFile p with
     | Some activeFile => suspend vaultRead_awaiting
     | None => ret tt
     end) ;;
    toggleSuggestedActions true
  else ret tt.

(** The [.then(content => ..)] on the promise of [vault.read]; there is
    no handler for a read that fails. *)
Definition vaultRead_settled (s : Settled) : M unit :=
  fileContent <- await s ;;
  assign (with_currentFileContent (Some fileContent)).

(** [initializeGeminiService()] *)
Definition initializeGeminiService : M unit :=
  try_catch
    (p <- this ;;
     if truthy (settings_apiKey p) then
       decryptedKey <- native (decryptApiKey (settings_apiKey p)) ;;
       assign (with_geminiService (Some {| service_key := decryptedKey |}))
     else ret tt)
    (fun error => console_error (lit "Failed to initialize Gemini service:")).

Definition masked : jsstring := repeat 8226 8.

(** The [onChange] of the key's text field in the settings tab, up to
    [await this.plugin.saveSettings()]. *)
Definition apiKey_onChange (v : jsstring) : M unit :=
  if negb (eqb v masked) then
    stored <- native (encryptApiKey v) ;;
    assign (with_apiKey stored) ;;
    suspend (saveSettings_awaiting stored)
  else ret tt.

(** Modelled from the spec: the settings are persisted by the host
    ([saveData], behind [saveSettings]); a save that resolves has written
    the key it was handed, a save that fails has written nothing.
    The [onChange] from its [await] on: the client is built again from the
    key the settings hold by then; a save that fails is handled by
    nobody. *)
Definition saveSettings_settled (snapshot : jsstring) (s : Settled) : M unit :=
  _ <- await s ;;
  assign (with_saved_apiKey (Some snapshot)) ;;
  initializeGeminiService.

(** The plugin object before [onload]. *)
Definition constructed : Plugin :=
  {| settings_apiKey := []; geminiService := None;
     messagesContainer := None; inputField := None;
     currentFileContent := None;
     chatContainer_display := display_unset;
     suggestedActions_display := display_unset;
     currentFile_header := (display_unset, []);
     workspace_activeFile := None; Date_now := 0;
     next_uid := O; remote := []; tasks := []; console := [];
     saved_apiKey := None |}.

(** [addChatContainer()] with [addChatEventListeners()]: the panel is built
    hidden, and the fields point into it. *)
Definition addChatContainer : M unit :=
  assign (with_chatContainer_display none) ;;
  assign (with_inputField
    (Some {| value := []; placeholder := lit "Ask anything or select...";
             focused := false |})) ;;
  assign (with_messagesContainer (Some [])).

(** [onload()], [loadData()] returning [stored] as the saved key. *)
Definition onload (stored : option jsstring) : M unit :=
  assign (with_apiKey (match stored with Some k => k | None => [] end)) ;;
  p <- this ;;
  (if truthy (settings_apiKey p) then initializeGeminiService else ret tt) ;;
  addChatContainer.

(* ================================================================== *)
(** * The event loop *)
(* ================================================================== *)

Inductive Event :=
| ClickIcon
| ClickClose
| ClickSend
| ClickAction (b : ActionButton)
| Type_ (text : jsstring)
| Keydown (key : jsstring) (shiftKey : bool)
| ChangeKey (v : jsstring)
| OpenFile (f : option TFile)
| Tick (t : N)
| Settle (n : nat) (s : Settled)
| Choose (n : nat) (language : jsstring).

Fixpoint drop_nth {A} (n : nat) (l : list A) : list A :=
  match n, l with
  | _, [] => []
  | O, _ :: l' => l'
  | S n', a :: l' => a :: drop_nth n' l'
  end.

Definition take_task (n : nat) : M (option Task) :=
  p <- this ;;
  assign (with_tasks (drop_nth n (tasks p))) ;;
  ret (nth_error (tasks p) n).

(** Modelled from the spec: the Language Picker (class
    [LanguageSelectionModal]) invokes its one-shot callback with the
    language chosen when the modal is accepted, and not at all when it is
    dismissed. *)
Definition languageModal_accept (n : nat) (language : jsstring) : M unit :=
  p <- this ;;
  match nth_error (tasks p) n with
  | Some (languageModal_open text) =>
      take_task n ;; languageSelected text language
  | _ => ret tt
  end.

Definition dispatch (e : Event) : M unit :=
  match e with
  | ClickIcon | ClickClose => toggleChatContainer
  | ClickSend => sendButton_click
  | ClickAction b => actionButton_click (textContent_of b)
  | Type_ text =>
      p <- this ;;
      match inputField p with
      | Some f =>
          assign (with_inputField
            (Some {| value := text; placeholder := placeholder f;
                     focused := true |}))
      | None => ret tt
      end
  | Keydown key shiftKey => inputField_keydown key shiftKey
  | ChangeKey v => apiKey_onChange v
  | OpenFile f => assign (fun p => with_world f (Date_now p) p)
  | Tick t => assign (fun p => with_world (workspace_activeFile p) t p)
  | Settle n s =>
      p <- this ;;
      match nth_error (tasks p) n with
      | Some (handleMessage_awaiting typingIndicator) =>
          take_task n ;; handleMessage_resume typingIndicator s
      | Some translate_awaiting => take_task n ;; translate_settled s
      | Some vaultRead_awaiting => take_task n ;; vaultRead_settled s
      | Some (renderMarkdown_awaiting el src a) =>
          take_task n ;; renderMarkdown_settled el src a s
      | Some (saveSettings_awaiting snapshot) =>
          take_task n ;; saveSettings_settled snapshot s
      | _ => ret tt
      end
  | Choose n language => languageModal_accept n language
  end.

(** Events are handled one after the other; an exception or a rejection
    that nobody handles is reported by the host and the loop goes on. *)
Fixpoint run (es : list Event) (p : Plugin) : Plugin :=
  match es with
  | [] => p
  | e :: es' => run es' (after (dispatch e) p)
  end.

(** The children of [.gemini-chat-messages]. *)
Definition children (p : Plugin) : list Element :=
  match messagesContainer p with
  | Some kids => kids
  | None => []
  end.

Definition is_message (e : Element) : bool :=
  match className e with
  | typing_indicator => false
  | _ => true
  end.

(** The Conversation: the message elements, in order. *)
Definition conversation (p : Plugin) : list Element :=
  filter is_message (children p).

Definition has_class (c : ClassName) (e : Element) : bool :=
  element_eqb_class (className e) c.

Definition pending_indicators (p : Plugin) : list Element :=
  filter (has_class typing_indicator) (children p).

(** The elements the methods build. *)
Definition userEl (n : nat) (text : jsstring) : Element :=
  {| uid := n; className := gemini_message user; inner := Text text |}.

Definition botEl (n : nat) (src : jsstring) : Element :=
  {| uid := n; className := gemini_message bot; inner := Markdown src |}.

Definition errorEl (n : nat) (text : jsstring) : Element :=
  {| uid := n; className := gemini_message_error; inner := Text text |}.

Definition typingEl (n : nat) : Element :=
  {| uid := n; className := typing_indicator; inner := Dots |}.

Definition user_messages (p : Plugin) : list Element :=
  filter (has_class (gemini_message user)) (children p).

(** The panel has been built: [this.messagesContainer] points to
    [.gemini-chat-messages], as it does from [addChatEventListeners] on. *)
Definition panel_built (p : Plugin) : Prop := messagesContainer p <> None.

(** Every node of the panel has its own [uid], below the next one to be
    given out. *)
Definition uids_fresh (p : Plugin) : Prop :=
  NoDup (map uid (children p))
  /\ Forall (fun e => (uid e < next_uid p)%nat) (children p).

(** The identities of the elements that wait for their rendering. *)
Fixpoint pending_uids (ts : list Task) : list nat :=
  match ts with
  | [] => []
  | renderMarkdown_awaiting n _ _ :: ts' => n :: pending_uids ts'
  | _ :: ts' => pending_uids ts'
  end.

(** The same of the nodes of the panel and of the elements built for it
    and not yet appended. *)
Definition uids_all_fresh (p : Plugin) : Prop :=
  NoDup (map uid (children p) ++ pending_uids (tasks p))
  /\ Forall (fun n => (n < next_uid p)%nat)
       (map uid (children p) ++ pending_uids (tasks p)).

(** Work whose failure the plugin handles: the model call and the
    translation have a [catch], and so has the rendering awaited in the
    [try] of [handleMessage]; the read of the note, the save of the
    settings and a rendering whose promise is dropped have none. *)
Definition handled (t : Task) : bool :=
  match t with
  | handleMessage_awaiting _ => true
  | translate_awaiting => true
  | renderMarkdown_awaiting _ _ (awaited_in_try _) => true
  | renderMarkdown_awaiting _ _ dropped => false
  | vaultRead_awaiting => false
  | saveSettings_awaiting _ => false
  | languageModal_open _ => true
  end.

(** A method preserves a property of the plugin, however it completes. *)
Definition preserves (I : Plugin -> Prop) {A} (m : M A) : Prop :=
  forall p, I p -> I (snd (m p)).

(** The plugin after [onload] without a saved key, and with the saved key
    of ["abc123"]. *)
Definition unconfigured : Plugin := after (onload None) constructed.

Definition configured : Plugin :=
  after (onload (Some (lit "MzIxY2Jh"))) constructed.

Definition note : TFile := {| basename := lit "note" |}.

(** The panel is opened on a note and the note is read. *)
Definition opened_on_note : Plugin :=
  run [OpenFile (Some note); ClickIcon; Settle 0 (Fulfilled (lit "Doc text"))]
    configured.

(** The panel is opened on an empty note and the note is read. *)
Definition opened_on_empty_note : Plugin :=
  run [OpenFile (Some note); ClickIcon; Settle 0 (Fulfilled [])] configured.

(** The panel is opened on a note, closed, the note is closed, and the
    panel is opened again. *)
Definition reopened_without_note : Plugin :=
  run [OpenFile (Some note); ClickIcon; Settle 0 (Fulfilled (lit "old note"));
       ClickClose; OpenFile None; ClickIcon] configured.

(** A Model Client has been built. *)
Definition client_configured (p : Plugin) : Prop := geminiService p <> None.

(** The note text held is [c]. *)
Definition holds_context (c : option jsstring) (p : Plugin) : Prop :=
  currentFileContent p = c.


(** A message has been sent and answered; the rendering of the answer has
    not settled. *)
Definition answered_unrendered : Plugin :=
  run [Type_ (lit "Hello"); ClickSend; Settle 0 (Fulfilled (lit "Hi"))]
    opened_on_note.

(** Every typing indicator in the panel belongs to a call that has not
    settled yet. *)
Definition indicators_pending (p : Plugin) : Prop :=
  forall e, In e (children p) -> className e = typing_indicator ->
    In (handleMessage_awaiting e) (tasks p).

(** A method returns normally, whatever the state it starts in. *)
Definition returns {A} (m : M A) : Prop :=
  forall p, exists a, fst (m p) = Normal a.

(** The input field after [this.inputField.value = '']. *)
Definition emptied (f : TextArea) : TextArea :=
  {| value := []; placeholder := placeholder f; focused := focused f |}.

(** The plugin when [handleMessage(message)] reaches its [await], from a
    state whose message container holds [kids]. *)
Definition awaiting_reply (message : jsstring) (kids : list Element)
    (p : Plugin) : Plugin :=
  with_tasks
    (tasks p ++ [handleMessage_awaiting (typingEl (S (next_uid p)))])
    (with_remote
       (remote p
        ++ [sendMessage (contextMessage_of (currentFileContent p) message)])
       (with_messagesContainer
          (Some (kids ++ [userEl (next_uid p) message;
                          typingEl (S (next_uid p))]))
          (with_next_uid (S (S (next_uid p)))
             (with_suggestedActions_display none p)))).

(* ================================================================== *)
(** * Facts about strings *)
(* ================================================================== *)

Section ListInduction.
Variable A : Type.
Variable P : list A -> Prop.
Hypothesis P0 : P [].
Hypothesis P1 : forall a, P [a].
Hypothesis P2 : forall a b, P [a; b].
Hypothesis P3 : forall a b c l, P l -> P (a :: b :: c :: l).

(** Induction that follows the three-byte groups of [Base64.encode]. *)
Lemma list_ind3 : forall l, P l.
Proof.
  assert (H : forall l, P l /\ (forall a, P (a :: l))
                        /\ (forall a b, P (a :: b :: l))).
  { induction l as [|x l [IH0 [IH1 IH2]]].
    - repeat split; auto.
    - repeat split; auto. }
  intro l. apply (H l).
Qed.
End ListInduction.

Lemma trimStart_nil_iff s :
  trimStart s = [] <-> forallb is_space s = true.
Proof.
  induction s as [|c s IH]; simpl.
  - tauto.
  - destruct (is_space c); simpl.
    + exact IH.
    + split; discriminate.
Qed.

Lemma trimStart_head s c r :
  trimStart s = c :: r -> is_space c = false.
Proof.
  induction s as [|d s IH]; simpl.
  - discriminate.
  - destruct (is_space d) eqn:E.
    + exact IH.
    + intro H. injection H as -> _. exact E.
Qed.

Lemma forallb_rev {A} (f : A -> bool) l :
  forallb f (rev l) = forallb f l.
Proof.
  induction l as [|a l IH]; simpl.
  - reflexivity.
  - rewrite forallb_app, IH. simpl. rewrite andb_true_r. apply andb_comm.
Qed.

(** A string trims to the empty string exactly when it is empty or made
    of white space only. *)
Lemma trim_nil_iff s :
  trim s = [] <-> forallb is_space s = true.
Proof.
  unfold trim, trimEnd. split.
  - intro H.
    assert (H' : trimStart (rev (trimStart s)) = []).
    { rewrite <- (rev_involutive (trimStart _)), H. reflexivity. }
    apply trimStart_nil_iff in H'. rewrite forallb_rev in H'.
    destruct (trimStart s) as [|c r] eqn:E.
    + apply trimStart_nil_iff. exact E.
    + apply trimStart_head in E. simpl in H'. rewrite E in H'. discriminate.
  - intro H. apply trimStart_nil_iff in H. rewrite H. reflexivity.
Qed.

Lemma truthy_trim_false s :
  truthy (trim s) = false <-> forallb is_space s = true.
Proof.
  rewrite <- trim_nil_iff. destruct (trim s); simpl; split;
    congruence || discriminate.
Qed.

Lemma truthy_true_iff s : truthy s = true <-> s <> [].
Proof. destruct s; simpl; split; congruence || discriminate. Qed.

Lemma eqb_refl s : eqb s s = true.
Proof.
  induction s as [|c s IH]; simpl; [reflexivity|].
  unfold codeunit_eqb. rewrite N.eqb_refl. exact IH.
Qed.

Lemma eqb_eq s t : eqb s t = true <-> s = t.
Proof.
  revert t. induction s as [|c s IH]; destruct t as [|d t]; simpl;
    try (split; congruence || discriminate).
  unfold codeunit_eqb. rewrite andb_true_iff, N.eqb_eq, IH.
  split; [intros [-> ->]; reflexivity | intro H; injection H; auto].
Qed.

(* ================================================================== *)
(** * Base64 round trip *)
(* ================================================================== *)

Module Base64Facts.
Import Base64.

Lemma sextet_check_all :
  forallb sextet_check (map N.of_nat (seq 0 64)) = true.
Proof. vm_compute. reflexivity. Qed.

Lemma sextet_ok v :
  v < 64 ->
  char_sextet (sextet_char v) = Some v
  /\ (sextet_char v =? pad) = false
  /\ ascii_whitespace (sextet_char v) = false.
Proof.
  intro Hv.
  assert (Hin : In v (map N.of_nat (seq 0 64))).
  { rewrite <- (N2Nat.id v). apply in_map. apply in_seq. lia. }
  pose proof (proj1 (forallb_forall _ _) sextet_check_all v Hin) as H.
  unfold sextet_check in H.
  apply andb_true_iff in H as [H Hws].
  apply andb_true_iff in H as [Hrt Hpad].
  apply negb_true_iff in Hws, Hpad.
  destruct (char_sextet (sextet_char v)) as [w|]; [|discriminate].
  apply N.eqb_eq in Hrt. subst w. auto.
Qed.

(** [lia] reads [/] and [mod] through their Euclidean equations. *)
Ltac Zify.zify_post_hook ::= Z.to_euclidean_division_equations.

Lemma sextet_bounds a b c :
  a <= 255 -> b <= 255 -> c <= 255 ->
  a / 4 < 64 /\ (a mod 4) * 16 + b / 16 < 64
  /\ (b mod 16) * 4 + c / 64 < 64 /\ c mod 64 < 64
  /\ (a mod 4) * 16 < 64 /\ (b mod 16) * 4 < 64.
Proof. intros Ha Hb Hc. repeat split; lia. Qed.

Lemma regroup a b c :
  a <= 255 -> b <= 255 -> c <= 255 ->
  (a / 4) * 4 + ((a mod 4) * 16 + b / 16) / 16 = a
  /\ (((a mod 4) * 16 + b / 16) mod 16) * 16
       + ((b mod 16) * 4 + c / 64) / 4 = b
  /\ (((b mod 16) * 4 + c / 64) mod 4) * 64 + c mod 64 = c.
Proof. intros Ha Hb Hc. repeat split; lia. Qed.

Lemma len_cons c l : len (c :: l) = len l + 1.
Proof. unfold len. simpl List.length. lia. Qed.

(** Padding is only looked for behind characters of the alphabet. *)
Lemma strip_padding_cons c l :
  (c =? pad) = false -> strip_padding (c :: l) = c :: strip_padding l.
Proof.
  intro Hc. cbn [strip_padding is_pad_tail].
  destruct l as [|d [|e l]]; rewrite ?Hc; reflexivity.
Qed.

Local Arguments sextet_char : simpl never.
Local Arguments char_sextet : simpl never.
Local Arguments N.div : simpl never.
Local Arguments N.modulo : simpl never.
Local Arguments N.mul : simpl never.
Local Arguments N.add : simpl never.

Lemma encode_decodable bytes :
  Forall (fun c => c <= 255) bytes -> decodable bytes (encode bytes).
Proof.
  induction bytes as [|a|a b|a b c rest IH] using list_ind3; intro H.
  - split; reflexivity || discriminate.
  - apply Forall_inv in H.
    assert (B0 : a / 4 < 64) by lia.
    assert (B1 : (a mod 4) * 16 < 64) by lia.
    destruct (sextet_ok _ B0) as (R0 & P0 & W0).
    destruct (sextet_ok _ B1) as (R1 & P1 & W1).
    assert (E0 : (a / 4) * 4 + ((a mod 4) * 16) / 16 = a) by lia.
    split; cbn [encode].
    + cbn [filter]. rewrite W0, W1. reflexivity.
    + reflexivity.
    + rewrite !strip_padding_cons by assumption. discriminate.
    + rewrite !strip_padding_cons by assumption.
      change (strip_padding [pad; pad]) with (@nil codeunit).
      cbn [sextets]. rewrite R0, R1.
      cbn [option_map decode]. rewrite E0. reflexivity.
  - pose proof (Forall_inv H) as Ha.
    pose proof (Forall_inv (Forall_inv_tail H)) as Hb. cbv beta in Ha, Hb.
    destruct (sextet_bounds a b 0 Ha Hb ltac:(lia)) as (B0 & B1 & _).
    assert (B2 : (b mod 16) * 4 < 64) by lia.
    destruct (sextet_ok _ B0) as (R0 & P0 & W0).
    destruct (sextet_ok _ B1) as (R1 & P1 & W1).
    destruct (sextet_ok _ B2) as (R2 & P2 & W2).
    destruct (regroup a b 0 Ha Hb ltac:(lia)) as (E0 & _).
    assert (E1 : (((a mod 4) * 16 + b / 16) mod 16) * 16
                 + ((b mod 16) * 4) / 4 = b) by lia.
    split; cbn [encode].
    + cbn [filter]. rewrite W0, W1, W2. reflexivity.
    + reflexivity.
    + rewrite !strip_padding_cons by assumption. discriminate.
    + rewrite !strip_padding_cons by assumption.
      change (strip_padding [pad]) with (@nil codeunit).
      cbn [sextets]. rewrite R0, R1, R2.
      cbn [option_map decode]. rewrite E0, E1. reflexivity.
  - pose proof (Forall_inv H) as Ha.
    pose proof (Forall_inv (Forall_inv_tail H)) as Hb.
    pose proof (Forall_inv (Forall_inv_tail (Forall_inv_tail H))) as Hc.
    pose proof (Forall_inv_tail (Forall_inv_tail (Forall_inv_tail H))) as Hr.
    cbv beta in Ha, Hb, Hc.
    destruct (sextet_bounds a b c Ha Hb Hc) as (B0 & B1 & B2 & B3 & _).
    destruct (sextet_ok _ B0) as (R0 & P0 & W0).
    destruct (sextet_ok _ B1) as (R1 & P1 & W1).
    destruct (sextet_ok _ B2) as (R2 & P2 & W2).
    destruct (sextet_ok _ B3) as (R3 & P3 & W3).
    destruct (regroup a b c Ha Hb Hc) as (E0 & E1 & E2).
    destruct (IH Hr) as [Iws Ilen Istrip Idec].
    split; cbn [encode].
    + cbn [filter]. rewrite W0, W1, W2, W3. cbn [negb]. rewrite Iws.
      reflexivity.
    + rewrite !len_cons. clear - Ilen. lia.
    + rewrite !strip_padding_cons by assumption. rewrite !len_cons.
      clear - Istrip. lia.
    + rewrite !strip_padding_cons by assumption. cbn [sextets].
      rewrite R0, R1, R2, R3.
      destruct (sextets (strip_padding (encode rest))) as [vs|];
        [|discriminate].
      cbn [option_map] in *. injection Idec as Idec.
      cbn [decode]. rewrite E0, E1, E2, Idec. reflexivity.
Qed.

(** [atob] undoes [btoa]. *)
Lemma atob_btoa data text :
  btoa data = Some text -> atob text = Some data.
Proof.
  unfold btoa.
  destruct (forallb (fun c => c <=? 255) data) eqn:E; [|discriminate].
  intro H. injection H as <-.
  assert (HF : Forall (fun c => c <= 255) data).
  { apply Forall_forall. intros c Hc.
    apply N.leb_le. exact (proj1 (forallb_forall _ _) E c Hc). }
  destruct (encode_decodable data HF) as [Hws Hlen Hstrip Hdec].
  unfold atob. rewrite Hws, Hlen. cbn [N.eqb].
  apply N.eqb_neq in Hstrip. rewrite Hstrip. exact Hdec.
Qed.

Lemma btoa_latin1 data :
  Forall (fun c => c <= 255) data -> btoa data = Some (encode data).
Proof.
  intro H. unfold btoa.
  replace (forallb (fun c => c <=? 255) data) with true; [reflexivity|].
  symmetry. apply forallb_forall. intros c Hc. apply N.leb_le.
  exact (proj1 (Forall_forall _ _) H c Hc).
Qed.

End Base64Facts.

(* ================================================================== *)
(** * The credential transform *)
(* ================================================================== *)

Lemma printable_latin1 s : printable s -> latin1 s.
Proof.
  unfold printable, latin1. intro H.
  eapply Forall_impl; [|exact H]. cbv beta. intros c Hc. lia.
Qed.

Lemma latin1_reverse s : latin1 s -> latin1 (reverse s).
Proof. unfold latin1, reverse. apply Forall_rev. Qed.

Lemma decrypt_encrypt key stored :
  encryptApiKey key = Some stored -> decryptApiKey stored = Some key.
Proof.
  unfold encryptApiKey, decryptApiKey. intro H.
  rewrite (Base64Facts.atob_btoa _ _ H). simpl.
  unfold reverse. rewrite rev_involutive. reflexivity.
Qed.

(** C4, as amended. For every string [s] of code units up to U+00FF, the
    printable ASCII strings among them, [reveal (obfuscate s)] is [s]; and
    [obfuscate (reveal t)] is [t] for the stored form [t] that [obfuscate]
    returns for [s]. *)
Theorem credential_round_trip (s : jsstring) :
  latin1 s ->
  reveal_obfuscate s = Some s
  /\ exists t, encryptApiKey s = Some t /\ obfuscate_reveal t = Some t.
Proof.
  intro H.
  assert (E : encryptApiKey s = Some (Base64.encode (reverse s))).
  { apply Base64Facts.btoa_latin1. apply latin1_reverse. exact H. }
  pose proof (decrypt_encrypt _ _ E) as D.
  split.
  - unfold reveal_obfuscate. rewrite E. exact D.
  - exists (Base64.encode (reverse s)). split; [exact E|].
    unfold obfuscate_reveal. rewrite D. exact E.
Qed.

Lemma credential_round_trip_witness :
  latin1 (lit "abc123")
  /\ reveal_obfuscate (lit "abc123") = Some (lit "abc123")
  /\ exists t, encryptApiKey (lit "abc123") = Some t
               /\ obfuscate_reveal t = Some t.
Proof.
  assert (H : latin1 (lit "abc123")).
  { apply printable_latin1. unfold printable.
    repeat constructor; discriminate. }
  split; [exact H|]. exact (credential_round_trip (lit "abc123") H).
Defined.

(** C4 as stated fails in its second half: ["ab"] is printable, is
    revealed as ["i"], and ["i"] is obfuscated as ["aQ=="]. *)
Lemma obfuscate_reveal_not_identity :
  printable (lit "ab")
  /\ obfuscate_reveal (lit "ab") = Some (lit "aQ==")
  /\ obfuscate_reveal (lit "ab") <> Some (lit "ab").
Proof.
  split; [|split].
  - unfold printable. repeat constructor; discriminate.
  - vm_compute. reflexivity.
  - vm_compute. discriminate.
Qed.

(** A stored form of one character is not even revealed: [atob] throws. *)
Lemma reveal_throws_on_short_text : decryptApiKey (lit "a") = None.
Proof. vm_compute. reflexivity. Qed.

(* ================================================================== *)
(** * Invariants of the plugin *)
(* ================================================================== *)

Section Preserves.
Variable I : Plugin -> Prop.

Lemma preserves_ret {A} (a : A) : preserves I (ret a).
Proof. intros p H. exact H. Qed.

Lemma preserves_throw {A} e : preserves I (@throw A e).
Proof. intros p H. exact H. Qed.

Lemma preserves_this : preserves I this.
Proof. intros p H. exact H. Qed.

Lemma preserves_bind {A B} (m : M A) (k : A -> M B) :
  preserves I m -> (forall a, preserves I (k a)) -> preserves I (bind m k).
Proof.
  intros Hm Hk p H. unfold bind. specialize (Hm p H).
  destruct (m p) as [[a|e] p']; simpl in *.
  - apply Hk. exact Hm.
  - exact Hm.
Qed.

Lemma preserves_try_catch {A} (m : M A) h :
  preserves I m -> (forall e, preserves I (h e)) ->
  preserves I (try_catch m h).
Proof.
  intros Hm Hh p H. unfold try_catch. specialize (Hm p H).
  destruct (m p) as [[a|e] p']; simpl in *.
  - exact Hm.
  - apply Hh. exact Hm.
Qed.

Lemma preserves_assign (f : Plugin -> Plugin) :
  (forall p, I p -> I (f p)) -> preserves I (assign f).
Proof. intros Hf p H. simpl. apply Hf. exact H. Qed.

End Preserves.

Create HintDb panel.
Create HintDb uids.

(** Walk down a method body: [special] is tried first, [known] closes
    what a lemma covers, [side] what an assignment leaves. *)
Ltac preserves_with special known side :=
  repeat first
  [ special
  | match goal with
    | |- preserves _ (bind _ _) => apply preserves_bind; [|intro]
    | |- preserves _ (try_catch _ _) => apply preserves_try_catch; [|intro]
    | |- preserves _ (ret _) => apply preserves_ret
    | |- preserves _ (throw _) => apply preserves_throw
    | |- preserves _ this => apply preserves_this
    | |- preserves _ (assign _) =>
        solve [known]
        || (apply preserves_assign; intros ? ?; solve [known | side])
    | |- preserves _ (match ?x with _ => _ end) => destruct x
    | |- preserves _ (if ?x then _ else _) => destruct x
    | |- preserves _ _ => solve [known]
    end ].

(** ** The panel stays built *)

Ltac panel_side :=
  unfold panel_built in *; simpl; assumption || discriminate.

Ltac keeps := preserves_with fail ltac:(eauto with panel) panel_side.

Lemma built_appendChild el p : panel_built p -> panel_built (appendChild el p).
Proof.
  unfold panel_built, appendChild. intro H.
  destruct (messagesContainer p) as [kids|] eqn:E.
  - discriminate.
  - contradiction H. reflexivity.
Qed.

#[local] Hint Resolve built_appendChild : panel.

Lemma keeps_createElement c i : preserves panel_built (createElement c i).
Proof. unfold createElement. keeps. Qed.

Lemma keeps_remove el : preserves panel_built (remove el).
Proof.
  unfold remove. apply preserves_assign. intros p H.
  unfold panel_built in *.
  destruct (messagesContainer p) as [kids|] eqn:E; simpl.
  - discriminate.
  - contradiction H. reflexivity.
Qed.

#[local] Hint Resolve keeps_createElement keeps_remove : panel.

Lemma keeps_suspend t : preserves panel_built (suspend t).
Proof. unfold suspend. keeps. Qed.

#[local] Hint Resolve keeps_suspend : panel.

Lemma keeps_addMessageToChat m a :
  preserves panel_built (addMessageToChat m a).
Proof. unfold addMessageToChat. keeps. Qed.

Lemma keeps_addErrorMessage m : preserves panel_built (addErrorMessage m).
Proof. unfold addErrorMessage. keeps. Qed.

#[local] Hint Resolve keeps_addMessageToChat keeps_addErrorMessage : panel.

Lemma keeps_handleMessage message :
  preserves panel_built (handleMessage message).
Proof.
  unfold handleMessage, toggleSuggestedActions, now, call. keeps.
Qed.

Lemma keeps_handleMessage_resume el s :
  preserves panel_built (handleMessage_resume el s).
Proof. unfold handleMessage_resume, await, now. keeps. Qed.

Lemma keeps_translate_settled s : preserves panel_built (translate_settled s).
Proof. unfold translate_settled, now, console_error. keeps. Qed.

Lemma keeps_renderMarkdown_settled n src a s :
  preserves panel_built (renderMarkdown_settled n src a s).
Proof.
  unfold renderMarkdown_settled, messagesContainer_appendChild, await.
  cbv zeta. keeps.
Qed.

Lemma keeps_languageSelected text language :
  preserves panel_built (languageSelected text language).
Proof. unfold languageSelected, call. keeps. Qed.

#[local] Hint Resolve keeps_handleMessage keeps_handleMessage_resume
  keeps_translate_settled keeps_renderMarkdown_settled
  keeps_languageSelected : panel.

Lemma keeps_actionButton_click text :
  preserves panel_built (actionButton_click text).
Proof.
  unfold actionButton_click, toggleSuggestedActions,
    showLanguageSelectionModal.
  keeps.
Qed.

Lemma keeps_sendButton_click : preserves panel_built sendButton_click.
Proof. unfold sendButton_click. keeps. Qed.

Lemma keeps_toggleChatContainer : preserves panel_built toggleChatContainer.
Proof.
  unfold toggleChatContainer, updateChatHeader, toggleSuggestedActions.
  keeps.
Qed.

Lemma keeps_initializeGeminiService :
  preserves panel_built initializeGeminiService.
Proof.
  unfold initializeGeminiService, native, console_error. keeps.
Qed.

#[local] Hint Resolve keeps_actionButton_click keeps_sendButton_click
  keeps_toggleChatContainer keeps_initializeGeminiService : panel.

Lemma keeps_dispatch e : preserves panel_built (dispatch e).
Proof.
  destruct e; unfold dispatch, languageModal_accept, inputField_keydown,
    apiKey_onChange, saveSettings_settled, native, vaultRead_settled, await,
    take_task; keeps.
Qed.

(** [initializeGeminiService] catches what [atob] throws. *)
Lemma initializeGeminiService_returns p :
  fst (initializeGeminiService p) = Normal tt.
Proof.
  unfold initializeGeminiService, try_catch, bind, this, native, assign,
    console_error, ret, throw.
  destruct (truthy (settings_apiKey p)); [|reflexivity].
  destruct (decryptApiKey (settings_apiKey p)); reflexivity.
Qed.

(** [onload] ends with [addChatContainer]. *)
Lemma onload_ends_with_addChatContainer stored :
  exists q, after (onload stored) constructed = snd (addChatContainer q).
Proof.
  unfold after, onload, bind at 1 2 3. unfold assign at 1, this at 1.
  set (q := with_apiKey _ constructed).
  destruct (truthy (settings_apiKey q)).
  - pose proof (initializeGeminiService_returns q) as R.
    destruct (initializeGeminiService q) as [[[]|e] q']; simpl in R;
      [|discriminate].
    exists q'. reflexivity.
  - exists q. reflexivity.
Qed.

Lemma built_onload stored : panel_built (after (onload stored) constructed).
Proof.
  destruct (onload_ends_with_addChatContainer stored) as [q ->].
  unfold panel_built. simpl. discriminate.
Qed.

Lemma run_preserves (I : Plugin -> Prop) :
  (forall e, preserves I (dispatch e)) ->
  forall es p, I p -> I (run es p).
Proof.
  intros Hd es. induction es as [|e es IH]; intros p H; simpl.
  - exact H.
  - apply IH. apply Hd. exact H.
Qed.

(** X15. From [onload] on, whatever happens, the message container is
    there: the guards of [addMessageToChat] and [addErrorMessage] on a
    missing container never fire. *)
Lemma panel_always_built stored es :
  panel_built (run es (after (onload stored) constructed)).
Proof.
  apply (run_preserves panel_built keeps_dispatch). apply built_onload.
Qed.

(** ** Nodes keep their own identity *)

Lemma pending_uids_app ts ts' :
  pending_uids (ts ++ ts') = pending_uids ts ++ pending_uids ts'.
Proof.
  induction ts as [|t ts IH]; simpl; [reflexivity|].
  destruct t; simpl; rewrite IH; reflexivity.
Qed.

Lemma pending_uids_perm ts ts' :
  Permutation ts ts' -> Permutation (pending_uids ts) (pending_uids ts').
Proof.
  induction 1 as [|t l l' _ IH|t t' l|l l' l'' _ IH _ IH'].
  - constructor.
  - destruct t; simpl; auto.
  - destruct t, t'; simpl; auto using Permutation_refl, perm_swap.
  - exact (Permutation_trans IH IH').
Qed.

Lemma drop_nth_perm {A} n (l : list A) t :
  nth_error l n = Some t -> Permutation l (t :: drop_nth n l).
Proof.
  revert l. induction n as [|n IH]; intros [|a l] H; simpl in *;
    try discriminate.
  - injection H as ->. apply Permutation_refl.
  - apply (Permutation_trans (perm_skip a (IH l H))). apply perm_swap.
Qed.

Lemma filter_perm {A} (g : A -> bool) l :
  Permutation l (filter (fun x => negb (g x)) l ++ filter g l).
Proof.
  induction l as [|a l IH]; simpl; [constructor|].
  destruct (g a); simpl.
  - apply Permutation_cons_app. exact IH.
  - apply perm_skip. exact IH.
Qed.

(** The identities in use: those of the nodes of the panel, then those of
    the elements that wait for their rendering. *)
Lemma uids_step p q removed added :
  Permutation (added ++ map uid (children p) ++ pending_uids (tasks p))
    (removed ++ map uid (children q) ++ pending_uids (tasks q)) ->
  NoDup added ->
  Forall (fun n => (next_uid p <= n < next_uid q)%nat) added ->
  (next_uid p <= next_uid q)%nat ->
  uids_all_fresh p -> uids_all_fresh q.
Proof.
  intros Hperm Hnd Hadd Hle [Hn Hlt].
  assert (Hall : NoDup (added ++ map uid (children p)
                          ++ pending_uids (tasks p))).
  { apply NoDup_app; [exact Hnd | exact Hn |].
    intros a Ha Hin.
    pose proof (proj1 (Forall_forall _ _) Hadd a Ha) as H1.
    pose proof (proj1 (Forall_forall _ _) Hlt a Hin) as H2.
    cbv beta in H1, H2. lia. }
  assert (Hbound : Forall (fun n => (n < next_uid q)%nat)
                     (added ++ map uid (children p)
                        ++ pending_uids (tasks p))).
  { apply Forall_app. split.
    - eapply Forall_impl; [|exact Hadd]. cbv beta. intros a Ha. lia.
    - eapply Forall_impl; [|exact Hlt]. cbv beta. intros a Ha. lia. }
  split.
  - exact (NoDup_app_remove_l _ _ (Permutation_NoDup Hperm Hall)).
  - exact (proj2 (proj1 (Forall_app _ _ _)
                    (Permutation_Forall Hperm Hbound))).
Qed.

Lemma uids_fresh_of_all p : uids_all_fresh p -> uids_fresh p.
Proof.
  intros [Hn Hlt]. split.
  - exact (NoDup_app_remove_r _ _ Hn).
  - apply Forall_app in Hlt as [Hlt _].
    apply Forall_forall. intros e He.
    exact (proj1 (Forall_forall _ _) Hlt (uid e) (in_map uid _ e He)).
Qed.

Lemma fresh_append p c i :
  uids_all_fresh p ->
  uids_all_fresh
    (appendChild {| uid := next_uid p; className := c; inner := i |}
       (with_next_uid (S (next_uid p)) p)).
Proof.
  unfold appendChild.
  destruct (messagesContainer (with_next_uid (S (next_uid p)) p))
    as [kids|] eqn:E; simpl in E.
  - intro H. apply (uids_step p _ [] [next_uid p]); [| | | |exact H].
    + unfold children. simpl. rewrite E, map_app. simpl.
      rewrite <- app_assoc. simpl. apply Permutation_middle.
    + repeat constructor; auto.
    + repeat constructor; simpl; lia.
    + simpl. lia.
  - intro H. apply (uids_step p _ [] []); [| | | |exact H].
    + unfold children. simpl. rewrite E. apply Permutation_refl.
    + constructor.
    + constructor.
    + simpl. lia.
Qed.

Lemma fresh_create_append c i :
  preserves uids_all_fresh
    (bind (createElement c i) (fun el => assign (appendChild el))).
Proof. intros p H. exact (fresh_append p c i H). Qed.

Lemma fresh_create_append_then {B} c i (k : Element -> M B) :
  (forall el, preserves uids_all_fresh (k el)) ->
  preserves uids_all_fresh
    (bind (createElement c i)
       (fun el => bind (assign (appendChild el)) (fun _ => k el))).
Proof.
  intros Hk p H. unfold bind, createElement, this, assign, ret. simpl.
  apply Hk. exact (fresh_append p c i H).
Qed.

(** The element built for a bot message takes the next identity and
    waits. *)
Lemma fresh_create_suspend c i src a :
  preserves uids_all_fresh
    (bind (createElement c i)
       (fun el => suspend (renderMarkdown_awaiting (uid el) src a))).
Proof.
  intros p H. apply (uids_step p _ [] [next_uid p]); [| | | |exact H].
  - unfold children. simpl. rewrite pending_uids_app. simpl.
    rewrite app_assoc. apply Permutation_cons_append.
  - repeat constructor; auto.
  - repeat constructor; simpl; lia.
  - simpl. lia.
Qed.

Lemma fresh_remove el : preserves uids_all_fresh (remove el).
Proof.
  unfold remove. apply preserves_assign. intros p H.
  destruct (messagesContainer p) as [kids|] eqn:E; [|exact H].
  apply (uids_step p _
           (map uid (filter (fun k => same_node k el) kids)) []);
    [|constructor|constructor|simpl; lia|exact H].
  unfold children. simpl. rewrite E.
  rewrite app_assoc, <- map_app.
  apply Permutation_app_tail. apply Permutation_map.
  apply (Permutation_trans (filter_perm (fun k => same_node k el) kids)).
  apply Permutation_app_comm.
Qed.

(** Work that is not a rendering adds no identity when it starts to
    wait. *)
Lemma fresh_suspend t :
  pending_uids [t] = [] -> preserves uids_all_fresh (suspend t).
Proof.
  intro Ht. unfold suspend. apply preserves_assign. intros p H.
  apply (uids_step p _ [] []);
    [|constructor|constructor|simpl; lia|exact H].
  unfold children. simpl. rewrite pending_uids_app, Ht, app_nil_r.
  apply Permutation_refl.
Qed.

Lemma fresh_take_task n : preserves uids_all_fresh (take_task n).
Proof.
  intros p H. unfold take_task, bind, this, assign, ret. simpl.
  destruct (nth_error (tasks p) n) as [t|] eqn:E.
  - apply (uids_step p _ (pending_uids [t]) []);
      [|constructor|constructor|simpl; lia|exact H].
    unfold children. simpl.
    apply (Permutation_trans
             (Permutation_app_head _
                (pending_uids_perm _ _ (drop_nth_perm n _ t E)))).
    change (t :: drop_nth n (tasks p)) with ([t] ++ drop_nth n (tasks p)).
    rewrite pending_uids_app.
    rewrite !app_assoc. apply Permutation_app_tail.
    apply Permutation_app_comm.
  - assert (Hd : drop_nth n (tasks p) = tasks p).
    { revert E. generalize (tasks p). clear. induction n as [|n IH];
        intros [|a l] E; simpl in *; try reflexivity; try discriminate.
      rewrite (IH l E). reflexivity. }
    apply (uids_step p _ [] []);
      [|constructor|constructor|simpl; lia|exact H].
    unfold children. simpl. rewrite Hd. apply Permutation_refl.
Qed.

#[local] Hint Resolve fresh_create_append fresh_remove fresh_take_task : uids.

Ltac uids_side :=
  match goal with
  | H : uids_all_fresh ?p |- uids_all_fresh ?q =>
      apply (uids_step p q [] []);
      [ unfold children; simpl; apply Permutation_refl
      | constructor | constructor | simpl; lia | exact H ]
  end.

Ltac keeps_uids :=
  preserves_with
    ltac:(first [ apply fresh_create_append
                | apply fresh_create_suspend
                | apply fresh_create_append_then; intro
                | apply fresh_suspend; reflexivity ])
    ltac:(eauto with uids) ltac:(idtac; uids_side).

Lemma fresh_clear : preserves uids_all_fresh
  (assign (with_messagesContainer (Some []))).
Proof.
  apply preserves_assign. intros p H.
  apply (uids_step p _ (map uid (children p)) []);
    [|constructor|constructor|simpl; lia|exact H].
  unfold children at 2. simpl. apply Permutation_refl.
Qed.

#[local] Hint Resolve fresh_clear : uids.

Lemma fresh_addMessageToChat m a :
  preserves uids_all_fresh (addMessageToChat m a).
Proof. unfold addMessageToChat. keeps_uids. Qed.

Lemma fresh_addErrorMessage m : preserves uids_all_fresh (addErrorMessage m).
Proof. unfold addErrorMessage. keeps_uids. Qed.

#[local] Hint Resolve fresh_addMessageToChat fresh_addErrorMessage : uids.

Lemma fresh_handleMessage message :
  preserves uids_all_fresh (handleMessage message).
Proof.
  unfold handleMessage, toggleSuggestedActions, now, call. keeps_uids.
Qed.

Lemma fresh_handleMessage_resume el s :
  preserves uids_all_fresh (handleMessage_resume el s).
Proof. unfold handleMessage_resume, await, now. keeps_uids. Qed.

Lemma fresh_translate_settled s :
  preserves uids_all_fresh (translate_settled s).
Proof. unfold translate_settled, now, console_error. keeps_uids. Qed.

Lemma fresh_languageSelected text language :
  preserves uids_all_fresh (languageSelected text language).
Proof. unfold languageSelected, call. keeps_uids. Qed.

#[local] Hint Resolve fresh_handleMessage fresh_handleMessage_resume
  fresh_translate_settled fresh_languageSelected : uids.

Lemma fresh_actionButton_click text :
  preserves uids_all_fresh (actionButton_click text).
Proof.
  unfold actionButton_click, toggleSuggestedActions,
    showLanguageSelectionModal.
  keeps_uids.
Qed.

Lemma fresh_sendButton_click : preserves uids_all_fresh sendButton_click.
Proof. unfold sendButton_click. keeps_uids. Qed.

Lemma fresh_toggleChatContainer : preserves uids_all_fresh toggleChatContainer.
Proof.
  unfold toggleChatContainer, updateChatHeader, toggleSuggestedActions.
  keeps_uids.
Qed.

Lemma fresh_initializeGeminiService :
  preserves uids_all_fresh initializeGeminiService.
Proof.
  unfold initializeGeminiService, native, console_error. keeps_uids.
Qed.

#[local] Hint Resolve fresh_actionButton_click fresh_sendButton_click
  fresh_toggleChatContainer fresh_initializeGeminiService : uids.

(** A rendering that settles: its element leaves the waiting ones, and
    is appended or not. *)
Lemma fresh_settle_render i n src a s p :
  nth_error (tasks p) i = Some (renderMarkdown_awaiting n src a) ->
  uids_all_fresh p ->
  uids_all_fresh
    (snd (bind (take_task i) (fun _ => renderMarkdown_settled n src a s) p)).
Proof.
  intros Hi H.
  pose proof (fresh_take_task i p H) as Ht.
  unfold take_task, bind, this, assign, ret in Ht. simpl in Ht.
  unfold bind, take_task, this, assign, ret. simpl.
  set (q := with_tasks (drop_nth i (tasks p)) p) in *.
  assert (Happ : uids_all_fresh
            (appendChild
               {| uid := n; className := gemini_message bot;
                  inner := Markdown src |} q)).
  { unfold appendChild.
    destruct (messagesContainer q) as [kids|] eqn:E; [|exact Ht].
    apply (uids_step p _ [] []);
      [|constructor|constructor|simpl; lia|exact H].
    unfold children. simpl. simpl in E. rewrite E, map_app. simpl.
    apply (Permutation_trans
             (Permutation_app_head _
                (pending_uids_perm _ _ (drop_nth_perm i _ _ Hi)))).
    simpl. rewrite <- app_assoc. simpl. apply Permutation_refl. }
  assert (Hcatch : forall ind,
            uids_all_fresh
              (snd (bind (remove ind)
                      (fun _ => addErrorMessage failureText) q))).
  { intro ind.
    apply (preserves_bind uids_all_fresh (remove ind)
             (fun _ => addErrorMessage failureText));
      [auto with uids | intro; auto with uids | exact Ht]. }
  assert (Hput : messagesContainer_appendChild
                   {| uid := n; className := gemini_message bot;
                      inner := Markdown src |} q
                 = match messagesContainer q with
                   | Some _ =>
                       (Normal tt,
                        appendChild
                          {| uid := n; className := gemini_message bot;
                             inner := Markdown src |} q)
                   | None => (Throw TypeError, q)
                   end).
  { unfold messagesContainer_appendChild, bind, this, assign, throw.
    destruct (messagesContainer q); reflexivity. }
  unfold renderMarkdown_settled. cbv zeta.
  destruct a as [|ind], s as [v|]; unfold try_catch, await;
    unfold bind at 1; unfold ret, throw; cbv beta iota;
    try rewrite Hput; try exact Ht; try apply Hcatch;
    destruct (messagesContainer q); cbv beta iota;
    try exact Happ; try exact Ht; apply Hcatch.
Qed.

Lemma fresh_dispatch e : preserves uids_all_fresh (dispatch e).
Proof.
  destruct e as [ | | | b | text | key shift | v | f | t | n s | n l];
    try (unfold dispatch, languageModal_accept, inputField_keydown,
           apiKey_onChange, native;
         keeps_uids; fail).
  intros p H. unfold dispatch, bind at 1, this at 1.
  destruct (nth_error (tasks p) n) as [[ind | | | text | k src a | snap]|] eqn:E;
    try exact H.
  - apply (preserves_bind uids_all_fresh (take_task n)
             (fun _ => handleMessage_resume ind s));
      [auto with uids | intro; auto with uids | exact H].
  - apply (preserves_bind uids_all_fresh (take_task n)
             (fun _ => translate_settled s));
      [auto with uids | intro; auto with uids | exact H].
  - apply (preserves_bind uids_all_fresh (take_task n)
             (fun _ => vaultRead_settled s));
      [auto with uids | intro; unfold vaultRead_settled, await; keeps_uids
      | exact H].
  - exact (fresh_settle_render n k src a s p E H).
  - apply (preserves_bind uids_all_fresh (take_task n)
             (fun _ => saveSettings_settled snap s));
      [auto with uids
      | intro; unfold saveSettings_settled, await; keeps_uids
      | exact H].
Qed.

(** [onload] leaves no work waiting. *)
Lemma onload_tasks stored : tasks (after (onload stored) constructed) = [].
Proof.
  assert (K : preserves (fun q => tasks q = []) (onload stored)).
  { unfold onload, initializeGeminiService, native, console_error,
      addChatContainer.
    preserves_with fail fail ltac:(simpl; assumption). }
  exact (K constructed eq_refl).
Qed.

Lemma uids_always_all_fresh stored es :
  uids_all_fresh (run es (after (onload stored) constructed)).
Proof.
  apply (run_preserves uids_all_fresh fresh_dispatch).
  unfold uids_all_fresh. rewrite onload_tasks.
  destruct (onload_ends_with_addChatContainer stored) as [q ->].
  unfold children. simpl. split; constructor.
Qed.

(** From [onload] on, no two nodes of the panel share a [uid]: to remove
    a node is to remove the one node with its [uid]. *)
Lemma uids_always_fresh stored es :
  uids_fresh (run es (after (onload stored) constructed)).
Proof. apply uids_fresh_of_all. apply uids_always_all_fresh. Qed.

(* ================================================================== *)
(** * Running the methods *)
(* ================================================================== *)

#[local] Arguments lit : simpl never.
#[local] Arguments trim : simpl never.
#[local] Arguments contextTemplate : simpl never.
#[local] Arguments failureText : simpl never.
#[local] Arguments textContent_of : simpl never.

(** Open the plugin record, so that the field reads of a method compute. *)
Ltac fields :=
  unfold children, conversation, user_messages, pending_indicators; simpl.

Ltac open_plugin p :=
  destruct p; simpl in *; subst;
  unfold after, completion, bind, this, assign, ret.

(** [handleMessage] up to its [await], when it passes its guard and the
    panel is built. *)
Lemma handleMessage_runs message p svc kids :
  geminiService p = Some svc ->
  trim message <> [] ->
  messagesContainer p = Some kids ->
  completion (handleMessage message) p = Normal tt
  /\ children (after (handleMessage message) p)
     = kids ++ [userEl (next_uid p) message; typingEl (S (next_uid p))]
  /\ remote (after (handleMessage message) p)
     = remote p
       ++ [sendMessage (contextMessage_of (currentFileContent p) message)]
  /\ tasks (after (handleMessage message) p)
     = tasks p ++ [handleMessage_awaiting (typingEl (S (next_uid p)))]
  /\ next_uid (after (handleMessage message) p) = S (S (next_uid p)).
Proof.
  intros Hsvc Htrim Hkids. apply truthy_true_iff in Htrim.
  unfold handleMessage. open_plugin p. rewrite Htrim. simpl. fields.
  rewrite <- app_assoc. repeat split; reflexivity.
Qed.

Lemma handleMessage_guard message p :
  forallb is_space message = true \/ geminiService p = None ->
  handleMessage message p = (Normal tt, p).
Proof.
  intro H. unfold handleMessage, bind, this.
  destruct (geminiService p) as [svc|]; [|reflexivity].
  destruct H as [H|H]; [|discriminate].
  apply truthy_trim_false in H. rewrite H. reflexivity.
Qed.

(** Removing a typing indicator touches no message. *)
Lemma remove_indicator_keeps_messages n kids :
  filter is_message
    (filter (fun k => negb (same_node k (typingEl n))) kids)
  = filter is_message kids.
Proof.
  induction kids as [|k kids IH]; simpl; [reflexivity|].
  destruct (same_node k (typingEl n)) eqn:E; simpl.
  - unfold same_node in E. apply andb_true_iff in E as [_ E].
    unfold is_message. simpl in E.
    destruct (className k) as [[]| |]; try discriminate. exact IH.
  - destruct (is_message k); rewrite IH; reflexivity.
Qed.

Lemma indicator_removed n kids :
  ~ In (typingEl n) (filter (fun k => negb (same_node k (typingEl n))) kids).
Proof.
  intro H. apply filter_In in H as [_ H].
  unfold same_node in H. simpl in H. rewrite Nat.eqb_refl in H.
  discriminate.
Qed.

(** The continuation of [handleMessage] on a failed call. *)
Lemma handleMessage_resume_rejected n p kids :
  messagesContainer p = Some kids ->
  handleMessage_resume (typingEl n) Rejected p
  = (Normal tt,
     with_messagesContainer
       (Some (filter (fun k => negb (same_node k (typingEl n))) kids
              ++ [errorEl (next_uid p) failureText]))
       (with_next_uid (S (next_uid p)) p)).
Proof.
  intro Hkids. unfold handleMessage_resume. open_plugin p. reflexivity.
Qed.

Lemma filter_keeps_all {A} (f : A -> bool) l :
  Forall (fun x => f x = true) l -> filter f l = l.
Proof.
  induction 1 as [|x l Hx _ IH]; simpl; [reflexivity|].
  rewrite Hx, IH. reflexivity.
Qed.

(** X22. A submission whose call fails before anything else happens: the
    panel gains the user message and the error message, and nothing
    else changes in it. *)
Lemma failed_submission_end_to_end rawText p svc kids :
  geminiService p = Some svc ->
  trim rawText <> [] ->
  messagesContainer p = Some kids ->
  uids_fresh p ->
  children
    (after (handleMessage_resume (typingEl (S (next_uid p))) Rejected)
       (after (handleMessage rawText) p))
  = kids ++ [userEl (next_uid p) rawText;
             errorEl (S (S (next_uid p))) failureText].
Proof.
  intros Hsvc Htrim Hkids [_ Hlt].
  destruct (handleMessage_runs rawText p svc kids Hsvc Htrim Hkids)
    as (_ & Hch & _ & _ & Hn).
  set (waiting := after (handleMessage rawText) p) in *.
  assert (Hw : messagesContainer waiting
     = Some (kids ++ [userEl (next_uid p) rawText;
                      typingEl (S (next_uid p))])).
  { unfold children in Hch.
    destruct (messagesContainer waiting) as [ks|] eqn:E.
    - rewrite Hch. reflexivity.
    - destruct kids; discriminate. }
  unfold after at 1.
  rewrite (handleMessage_resume_rejected _ waiting _ Hw).
  unfold children. simpl. rewrite Hn, filter_app. simpl.
  replace (same_node (typingEl (S (next_uid p))) (typingEl (S (next_uid p))))
    with true
    by (unfold same_node; simpl; rewrite Nat.eqb_refl; reflexivity).
  replace (same_node (userEl (next_uid p) rawText)
             (typingEl (S (next_uid p))))
    with false
    by (unfold same_node; simpl; symmetry; apply andb_false_r).
  simpl. rewrite filter_keeps_all.
  - rewrite <- app_assoc. reflexivity.
  - unfold children in Hlt. rewrite Hkids in Hlt.
    eapply Forall_impl; [|exact Hlt]. intros k Hk. simpl in Hk.
    unfold same_node. simpl.
    replace (Nat.eqb (uid k) (S (next_uid p))) with false
      by (symmetry; apply Nat.eqb_neq; lia).
    reflexivity.
Qed.

Lemma filter_user_error kids n text :
  filter (has_class (gemini_message user)) (kids ++ [errorEl n text])
  = filter (has_class (gemini_message user)) kids.
Proof. rewrite filter_app. simpl. apply app_nil_r. Qed.

(** No label of the [switch] is another one. *)
Lemma translate_label_cases :
  eqb (lit "Translate to") (lit "Summarize this page") = false
  /\ eqb (lit "Translate to") (lit "Ask about this page") = false
  /\ eqb (lit "Translate to") (lit "Find action items") = false
  /\ eqb (lit "Translate to") (lit "Translate to") = true.
Proof. repeat split; reflexivity. Qed.

(** As the panel is written, the text of a button starts with its icon:
    trimmed, it is none of the [case] labels. *)
Lemma rendered_button_matches_no_case b :
  let action := trim (textContent_of b) in
  eqb action (lit "Summarize this page") = false
  /\ eqb action (lit "Ask about this page") = false
  /\ eqb action (lit "Find action items") = false
  /\ eqb action (lit "Translate to") = false.
Proof. destruct b; repeat split; vm_compute; reflexivity. Qed.

(* ================================================================== *)
(** * Submitting a message *)
(* ================================================================== *)

(** C1 as stated fails on an empty note: the snapshot held is the empty string, which
    is falsy, and the prompt sent is the question alone, not the
    composition around the (empty) text. *)
Lemma empty_note_prompt_is_bare :
  geminiService opened_on_empty_note
    = Some {| service_key := lit "abc123" |}
  /\ currentFileContent opened_on_empty_note = Some []
  /\ lit "Hello" <> []
  /\ remote (after (handleMessage (lit "Hello")) opened_on_empty_note)
     = [sendMessage (lit "Hello")]
  /\ lit "Hello" <> contextTemplate [] (lit "Hello").
Proof.
  repeat split; try (vm_compute; reflexivity); vm_compute; discriminate.
Qed.

(** C1, as amended. When a Model Client is configured, the text [Q] is not
    blank and a snapshot [D] is held, the prompt handed to [sendMessage]
    is the template around [D] and then [Q], both verbatim, when [D] is
    not empty, and [Q] alone when [D] is the empty string. Either way the
    user message put in the panel holds [Q] alone. *)
Theorem prompt_embeds_context (Q D : jsstring) (p : Plugin) svc kids :
  geminiService p = Some svc ->
  trim Q <> [] ->
  currentFileContent p = Some D ->
  messagesContainer p = Some kids ->
  remote (after (handleMessage Q) p)
    = remote p
      ++ [sendMessage
            match D with
            | [] => Q
            | _ :: _ => contextTemplate D Q
            end]
  /\ occurs_then D Q (contextTemplate D Q)
  /\ user_messages (after (handleMessage Q) p)
     = user_messages p ++ [userEl (next_uid p) Q].
Proof.
  intros Hsvc Htrim HD Hkids.
  destruct (handleMessage_runs Q p svc kids Hsvc Htrim Hkids)
    as (_ & Hch & Hre & _).
  split; [|split].
  - rewrite Hre, HD. unfold contextMessage_of. destruct D; reflexivity.
  - exists (lit "Context from current note:" ++ [LF]),
      ([LF; LF] ++ lit "User question: "), [].
    unfold contextTemplate. rewrite app_nil_r, <- !app_assoc. reflexivity.
  - unfold user_messages. rewrite Hch. unfold children. rewrite Hkids.
    rewrite filter_app. reflexivity.
Qed.

Lemma prompt_embeds_context_witness :
  (remote (after (handleMessage (lit "Hello")) opened_on_note)
     = [sendMessage (contextTemplate (lit "Doc text") (lit "Hello"))]
   /\ occurs_then (lit "Doc text") (lit "Hello")
        (contextTemplate (lit "Doc text") (lit "Hello"))
   /\ user_messages (after (handleMessage (lit "Hello")) opened_on_note)
      = [userEl 0 (lit "Hello")])
  /\ remote (after (handleMessage (lit "Hello")) opened_on_empty_note)
     = [sendMessage (lit "Hello")]
  /\ user_messages (after (handleMessage (lit "Hello")) opened_on_empty_note)
     = [userEl 0 (lit "Hello")].
Proof.
  split.
  - apply (prompt_embeds_context (lit "Hello") (lit "Doc text")
             opened_on_note {| service_key := lit "abc123" |} []).
    + vm_compute. reflexivity.
    + vm_compute. discriminate.
    + reflexivity.
    + vm_compute. reflexivity.
  - destruct (prompt_embeds_context (lit "Hello") [] opened_on_empty_note
                {| service_key := lit "abc123" |} [])
      as (H1 & _ & H3).
    + vm_compute. reflexivity.
    + vm_compute. discriminate.
    + reflexivity.
    + vm_compute. reflexivity.
    + split; [exact H1 | exact H3].
Defined.

(** Without a note text, the prompt is the message itself. *)
Lemma hello_without_context :
  remote (after (handleMessage (lit "Hello")) configured)
  = [sendMessage (lit "Hello")].
Proof. vm_compute. reflexivity. Qed.

(** With the note text ["Doc text"], the prompt holds it and the
    message. *)
Lemma hello_with_context :
  remote (after (handleMessage (lit "Hello")) opened_on_note)
  = [sendMessage
       (lit "Context from current note:" ++ [LF] ++ lit "Doc text"
          ++ [LF; LF] ++ lit "User question: Hello")].
Proof. vm_compute. reflexivity. Qed.

(** Typed text is trimmed by the send button before it is submitted. *)
Lemma send_button_trims :
  children (run [Type_ (lit "  Hello "); ClickSend] opened_on_note)
  = [userEl 0 (lit "Hello"); typingEl 1].
Proof. vm_compute. reflexivity. Qed.

(** C2 as stated fails when no key has been set: the text is not empty,
    and nothing is put in the panel. *)
Lemma unconfigured_submit_appends_nothing :
  lit "Hello" <> []
  /\ messagesContainer unconfigured = Some []
  /\ geminiService unconfigured = None
  /\ children (after (handleMessage (lit "Hello")) unconfigured) = [].
Proof.
  repeat split; try (vm_compute; reflexivity). vm_compute. discriminate.
Qed.

(** C2, as amended. When a Model Client is configured and [rawText] is
    not blank, [handleMessage] puts exactly one user message in the panel,
    holding [rawText] itself, and puts the typing indicator after it. *)
Theorem submit_appends_user_message (rawText : jsstring) (p : Plugin)
    svc kids :
  geminiService p = Some svc ->
  trim rawText <> [] ->
  messagesContainer p = Some kids ->
  children (after (handleMessage rawText) p)
    = kids ++ [userEl (next_uid p) rawText; typingEl (S (next_uid p))]
  /\ user_messages (after (handleMessage rawText) p)
     = user_messages p ++ [userEl (next_uid p) rawText]
  /\ pending_indicators (after (handleMessage rawText) p)
     = pending_indicators p ++ [typingEl (S (next_uid p))].
Proof.
  intros Hsvc Htrim Hkids.
  destruct (handleMessage_runs rawText p svc kids Hsvc Htrim Hkids)
    as (_ & Hch & _).
  split; [exact Hch|].
  unfold user_messages, pending_indicators. rewrite Hch.
  unfold children. rewrite Hkids, !filter_app. split; reflexivity.
Qed.

Lemma submit_appends_user_message_witness :
  children (after (handleMessage (lit "Hello"))
              opened_on_note)
    = [userEl 0 (lit "Hello"); typingEl 1]
  /\ user_messages (after (handleMessage (lit "Hello"))
              opened_on_note)
     = [userEl 0 (lit "Hello")]
  /\ pending_indicators (after (handleMessage (lit "Hello"))
              opened_on_note)
     = [typingEl 1].
Proof.
  apply (submit_appends_user_message (lit "Hello")
           opened_on_note
           {| service_key := lit "abc123" |} []).
  - vm_compute. reflexivity.
  - vm_compute. discriminate.
  - vm_compute. reflexivity.
Defined.

(** C3. When the call fails, the continuation of [handleMessage] returns
    normally, takes the typing indicator out, and puts one error message
    with the fixed text at the end; the messages that were in the panel
    stay as they were. *)
Theorem failed_call_appends_one_error (n : nat) (p : Plugin) kids :
  messagesContainer p = Some kids ->
  completion (handleMessage_resume (typingEl n) Rejected) p = Normal tt
  /\ children (after (handleMessage_resume (typingEl n) Rejected) p)
     = filter (fun k => negb (same_node k (typingEl n))) kids
       ++ [errorEl (next_uid p) failureText]
  /\ ~ In (typingEl n)
         (children (after (handleMessage_resume (typingEl n) Rejected) p))
  /\ conversation (after (handleMessage_resume (typingEl n) Rejected) p)
     = conversation p ++ [errorEl (next_uid p) failureText]
  /\ remote (after (handleMessage_resume (typingEl n) Rejected) p)
     = remote p.
Proof.
  intro Hkids.
  assert (Hch : children (after (handleMessage_resume (typingEl n) Rejected) p)
     = filter (fun k => negb (same_node k (typingEl n))) kids
       ++ [errorEl (next_uid p) failureText]).
  { unfold after. rewrite (handleMessage_resume_rejected n p kids Hkids).
    reflexivity. }
  split; [|split; [exact Hch|split; [|split]]].
  - unfold completion. rewrite (handleMessage_resume_rejected n p kids Hkids).
    reflexivity.
  - rewrite Hch. intro H. apply in_app_or in H as [H|H].
    + exact (indicator_removed n kids H).
    + destruct H as [H|[]]. discriminate.
  - unfold conversation at 1. rewrite Hch, filter_app.
    rewrite remove_indicator_keeps_messages.
    unfold conversation, children. rewrite Hkids. reflexivity.
  - unfold after. rewrite (handleMessage_resume_rejected n p kids Hkids).
    reflexivity.
Qed.

Lemma failed_call_appends_one_error_witness :
  let waiting := after (handleMessage (lit "Hello")) configured in
  children waiting = [userEl 0 (lit "Hello"); typingEl 1]
  /\ completion (handleMessage_resume (typingEl 1) Rejected) waiting
     = Normal tt
  /\ children (after (handleMessage_resume (typingEl 1) Rejected) waiting)
     = [userEl 0 (lit "Hello"); errorEl 2 failureText].
Proof.
  intro waiting.
  destruct (failed_call_appends_one_error 1 waiting
              [userEl 0 (lit "Hello"); typingEl 1])
    as (H1 & H2 & _).
  - vm_compute. reflexivity.
  - split; [vm_compute; reflexivity|]. split; [exact H1|]. exact H2.
Defined.

(** C5. On a text that is empty or white space only, and likewise without
    a Model Client, [handleMessage] returns at once: the plugin, its panel,
    the calls made and the work waiting are what they were. *)
Theorem submit_blank_or_unconfigured_is_noop (rawText : jsstring)
    (p : Plugin) :
  forallb is_space rawText = true \/ geminiService p = None ->
  handleMessage rawText p = (Normal tt, p).
Proof. apply handleMessage_guard. Qed.

Lemma submit_blank_or_unconfigured_is_noop_witness :
  handleMessage [32; 9; 10] configured = (Normal tt, configured)
  /\ handleMessage (lit "Hello") unconfigured = (Normal tt, unconfigured).
Proof.
  split.
  - apply (submit_blank_or_unconfigured_is_noop [32; 9; 10] configured).
    left. reflexivity.
  - apply (submit_blank_or_unconfigured_is_noop (lit "Hello") unconfigured).
    right. reflexivity.
Defined.

(* ================================================================== *)
(** * Suggested actions *)
(* ================================================================== *)

(** The click on an action button, when no note text is held. *)
Lemma actionButton_click_without_context textContent p :
  truthy_opt (currentFileContent p) = false ->
  actionButton_click textContent p
  = addErrorMessage (lit "No active file selected") p.
Proof.
  intro H. unfold actionButton_click, bind, this.
  destruct (currentFileContent p) as [text|]; [|reflexivity].
  simpl in H. rewrite H. reflexivity.
Qed.

Lemma addErrorMessage_runs text p kids :
  messagesContainer p = Some kids ->
  completion (addErrorMessage text) p = Normal tt
  /\ children (after (addErrorMessage text) p)
     = kids ++ [errorEl (next_uid p) text]
  /\ remote (after (addErrorMessage text) p) = remote p
  /\ tasks (after (addErrorMessage text) p) = tasks p.
Proof.
  intro Hkids. unfold addErrorMessage. open_plugin p.
  repeat split; reflexivity.
Qed.

(** The click on the button labelled [Translate to] puts no user message
    in the panel and calls nothing. *)
Lemma translate_click_quiet textContent p :
  trim textContent = lit "Translate to"
  \/ textContent = textContent_of TranslateTo ->
  user_messages (after (actionButton_click textContent) p) = user_messages p
  /\ remote (after (actionButton_click textContent) p) = remote p.
Proof.
  intro Hlabel.
  destruct (truthy_opt (currentFileContent p)) eqn:Hctx.
  - unfold actionButton_click.
    destruct Hlabel as [-> | ->].
    + open_plugin p.
      destruct currentFileContent0 as [[|c text]|]; try discriminate.
      simpl. split; reflexivity.
    + open_plugin p.
      destruct currentFileContent0 as [[|c text]|]; try discriminate.
      simpl. split; reflexivity.
  - unfold after. rewrite (actionButton_click_without_context _ _ Hctx).
    unfold addErrorMessage. open_plugin p.
    destruct messagesContainer0 as [kids|]; simpl; [|split; reflexivity].
    fields. split; [|reflexivity].
    apply (filter_user_error kids next_uid0).
Qed.

(** A bot message is built and waits for its rendering. *)
Lemma addMessageToChat_bot_state src t a p kids :
  messagesContainer p = Some kids ->
  addMessageToChat {| role := bot; content := src; timestamp := t |} a p
  = (Normal tt,
     with_tasks (tasks p ++ [renderMarkdown_awaiting (next_uid p) src a])
       (with_next_uid (S (next_uid p)) p)).
Proof.
  intro Hkids. unfold addMessageToChat, createElement, suspend.
  open_plugin p. reflexivity.
Qed.

(** The rendering has succeeded: the element is appended. *)
Lemma renderMarkdown_fulfilled_state n src a v p kids :
  messagesContainer p = Some kids ->
  renderMarkdown_settled n src a (Fulfilled v) p
  = (Normal tt, with_messagesContainer (Some (kids ++ [botEl n src])) p).
Proof.
  intro Hkids. unfold renderMarkdown_settled, messagesContainer_appendChild.
  open_plugin p. destruct a; reflexivity.
Qed.

(** The rendering has failed under the [try] of [handleMessage]: the
    [catch] puts the error message. *)
Lemma renderMarkdown_rejected_caught_state n src ind p kids :
  messagesContainer p = Some kids ->
  renderMarkdown_settled n src (awaited_in_try ind) Rejected p
  = (Normal tt,
     with_messagesContainer
       (Some (filter (fun k => negb (same_node k ind)) kids
              ++ [errorEl (next_uid p) failureText]))
       (with_next_uid (S (next_uid p)) p)).
Proof.
  intro Hkids. unfold renderMarkdown_settled, messagesContainer_appendChild.
  open_plugin p. reflexivity.
Qed.

(** The rendering has failed and its promise was dropped: nothing is
    appended and the rejection is handled by nobody. *)
Lemma renderMarkdown_rejected_dropped_state n src p :
  renderMarkdown_settled n src dropped Rejected p = (Throw RejectedPromise, p).
Proof. reflexivity. Qed.

(** X23. The translate action where it goes well. A click on [Translate to]
    puts no user message in the panel. When the picker then calls back
    with a language and a Model Client is configured, [translateContent]
    is called with the note text and the language, and the panel is left as
    it is. When that call succeeds the panel is still as it was, and the
    bot element waits for its rendering; when the rendering has succeeded,
    that one bot element, holding the translation, is put at the end of
    the panel. When the call fails, one error message [Translation failed]
    is put there. *)
Theorem translate_action (clicked chosen settled rendered : Plugin)
    (textContent text language translation v : jsstring) svc kids kids' :
  trim textContent = lit "Translate to"
  \/ textContent = textContent_of TranslateTo ->
  geminiService chosen = Some svc ->
  messagesContainer settled = Some kids ->
  messagesContainer rendered = Some kids' ->
  user_messages (after (actionButton_click textContent) clicked)
    = user_messages clicked
  /\ children (after (languageSelected text language) chosen)
     = children chosen
  /\ remote (after (languageSelected text language) chosen)
     = remote chosen ++ [translateContent text language]
  /\ translate_settled (Fulfilled translation) settled
     = (Normal tt,
        with_tasks
          (tasks settled
           ++ [renderMarkdown_awaiting (next_uid settled) translation dropped])
          (with_next_uid (S (next_uid settled)) settled))
  /\ children
       (after (renderMarkdown_settled (next_uid settled) translation dropped
                 (Fulfilled v)) rendered)
     = kids' ++ [botEl (next_uid settled) translation]
  /\ children (after (translate_settled Rejected) settled)
     = kids ++ [errorEl (next_uid settled) (lit "Translation failed")].
Proof.
  intros Hlabel Hsvc Hkids Hkids'.
  split; [exact (proj1 (translate_click_quiet textContent clicked Hlabel))|].
  split; [|split; [|split; [|split]]].
  - unfold languageSelected. open_plugin chosen. reflexivity.
  - unfold languageSelected. open_plugin chosen. reflexivity.
  - unfold translate_settled, bind at 1, now, bind, this, ret.
    apply (addMessageToChat_bot_state translation _ dropped settled kids
             Hkids).
  - unfold after.
    rewrite (renderMarkdown_fulfilled_state _ _ dropped v rendered kids'
               Hkids').
    unfold children. reflexivity.
  - unfold translate_settled. open_plugin settled. reflexivity.
Qed.

Lemma translate_action_witness :
  let opened := opened_on_note in
  let waiting := after (translate_settled (Fulfilled (lit "Texte"))) opened in
  user_messages (after (actionButton_click (lit "Translate to")) opened) = []
  /\ remote (after (languageSelected (lit "Doc text") (lit "French")) opened)
     = [translateContent (lit "Doc text") (lit "French")]
  /\ children waiting = []
  /\ tasks waiting = [renderMarkdown_awaiting 0 (lit "Texte") dropped]
  /\ children
       (after (renderMarkdown_settled 0 (lit "Texte") dropped (Fulfilled []))
          waiting)
     = [botEl 0 (lit "Texte")]
  /\ children (after (translate_settled Rejected) opened)
     = [errorEl 0 (lit "Translation failed")].
Proof.
  intros opened waiting.
  destruct (translate_action opened opened opened waiting
              (lit "Translate to") (lit "Doc text") (lit "French")
              (lit "Texte") [] {| service_key := lit "abc123" |} [] [])
    as (H1 & _ & H3 & _ & H5 & H6).
  - left. vm_compute. reflexivity.
  - vm_compute. reflexivity.
  - vm_compute. reflexivity.
  - vm_compute. reflexivity.
  - repeat split; try assumption; vm_compute; reflexivity.
Defined.


(** C7. Whatever the button, when no note text is held its click puts the
    error message [No active file selected] in the panel and returns: no
    call is made and no work is left waiting. *)
Theorem action_without_context (textContent : jsstring) (p : Plugin) kids :
  truthy_opt (currentFileContent p) = false ->
  messagesContainer p = Some kids ->
  completion (actionButton_click textContent) p = Normal tt
  /\ children (after (actionButton_click textContent) p)
     = kids ++ [errorEl (next_uid p) (lit "No active file selected")]
  /\ remote (after (actionButton_click textContent) p) = remote p
  /\ tasks (after (actionButton_click textContent) p) = tasks p.
Proof.
  intros Hctx Hkids. unfold after, completion.
  rewrite (actionButton_click_without_context _ _ Hctx).
  exact (addErrorMessage_runs _ p kids Hkids).
Qed.

Lemma action_without_context_witness :
  completion (actionButton_click (lit "Summarize this page")) configured
    = Normal tt
  /\ children (after (actionButton_click (lit "Summarize this page"))
                 configured)
     = [errorEl 0 (lit "No active file selected")]
  /\ remote (after (actionButton_click (lit "Summarize this page"))
               configured) = []
  /\ tasks (after (actionButton_click (lit "Summarize this page"))
              configured) = [].
Proof.
  apply (action_without_context (lit "Summarize this page") configured []).
  - vm_compute. reflexivity.
  - vm_compute. reflexivity.
Defined.

(** C10. When the picker calls back and no Model Client is configured,
    nothing happens: no call, no message, no work left waiting. *)
Theorem translate_without_client (text language : jsstring) (p : Plugin) :
  geminiService p = None ->
  languageSelected text language p = (Normal tt, p).
Proof.
  intro H. unfold languageSelected, bind, this. rewrite H. reflexivity.
Qed.

Lemma translate_without_client_witness :
  languageSelected (lit "Doc text") (lit "French") unconfigured
  = (Normal tt, unconfigured).
Proof.
  apply (translate_without_client (lit "Doc text") (lit "French")
           unconfigured).
  reflexivity.
Defined.

(* ================================================================== *)
(** * Opening the panel *)
(* ================================================================== *)

(** C8. Opening the hidden panel leaves its message container empty,
    whatever was in it. *)
Theorem openSession_empties_conversation (p : Plugin) :
  chatContainer_display p = none ->
  children (after toggleChatContainer p) = []
  /\ conversation (after toggleChatContainer p) = []
  /\ chatContainer_display (after toggleChatContainer p) = flex.
Proof.
  intro H. unfold toggleChatContainer, updateChatHeader,
    toggleSuggestedActions, suspend.
  open_plugin p.
  destruct messagesContainer0, workspace_activeFile0; simpl;
    repeat split; reflexivity.
Qed.

Lemma openSession_empties_conversation_witness :
  let closed :=
    run [ClickIcon; Type_ (lit "Hello"); ClickSend;
         Settle 0 (Fulfilled (lit "Hi")); Settle 0 (Fulfilled []);
         ClickClose] configured in
  children closed = [userEl 0 (lit "Hello"); botEl 2 (lit "Hi")]
  /\ children (after toggleChatContainer closed) = []
  /\ conversation (after toggleChatContainer closed) = []
  /\ chatContainer_display (after toggleChatContainer closed) = flex.
Proof.
  intro closed. split; [vm_compute; reflexivity|].
  apply (openSession_empties_conversation closed).
  vm_compute. reflexivity.
Defined.

(** [toggleChatContainer] never writes [currentFileContent]: only the
    read of an open note does, when it settles. *)
Lemma toggleChatContainer_keeps_context p :
  currentFileContent (after toggleChatContainer p) = currentFileContent p.
Proof.
  unfold toggleChatContainer, updateChatHeader, toggleSuggestedActions,
    suspend.
  open_plugin p.
  destruct chatContainer_display0, messagesContainer0,
    workspace_activeFile0; reflexivity.
Qed.

(** C9 fails on the code. The panel is opened on a note, closed, the note
    is closed, and the panel is opened again: no note is open, no read is
    waiting, and the text of the former note is still held, so that a
    question is sent with it. *)
Theorem reopened_panel_holds_stale_context :
  workspace_activeFile reopened_without_note = None
  /\ chatContainer_display reopened_without_note = flex
  /\ tasks reopened_without_note = []
  /\ currentFileContent reopened_without_note = Some (lit "old note")
  /\ remote (after (handleMessage (lit "Hello")) reopened_without_note)
     = [sendMessage (contextTemplate (lit "old note") (lit "Hello"))].
Proof. repeat split; vm_compute; reflexivity. Qed.

(* ================================================================== *)
(** * More on trimming *)
(* ================================================================== *)

Lemma trimStart_fixed c r : is_space c = false -> trimStart (c :: r) = c :: r.
Proof. intro H. simpl. rewrite H. reflexivity. Qed.

(** [trimStart] drops a run of white space from the front. *)
Lemma trimStart_suffix s :
  exists w, s = w ++ trimStart s /\ forallb is_space w = true.
Proof.
  induction s as [|c s (w & Hw & Hsp)]; simpl.
  - exists []. split; reflexivity.
  - destruct (is_space c) eqn:E.
    + exists (c :: w). simpl. rewrite E, Hsp. split; [|reflexivity].
      f_equal. exact Hw.
    + exists []. split; reflexivity.
Qed.

Lemma trimEnd_prefix s :
  exists w, s = trimEnd s ++ w /\ forallb is_space w = true.
Proof.
  unfold trimEnd. destruct (trimStart_suffix (rev s)) as (w & Hw & Hsp).
  exists (rev w). split.
  - rewrite <- rev_app_distr, <- Hw, rev_involutive. reflexivity.
  - rewrite forallb_rev. exact Hsp.
Qed.

Lemma trimEnd_fixed s :
  (forall c r, rev s = c :: r -> is_space c = false) -> trimEnd s = s.
Proof.
  intro H. unfold trimEnd. destruct (rev s) as [|c r] eqn:E.
  - simpl. rewrite <- (rev_involutive s), E. reflexivity.
  - rewrite (trimStart_fixed c r (H c r eq_refl)), <- E.
    apply rev_involutive.
Qed.

(** What [trim] returns neither starts nor ends with white space. *)
Lemma trim_head s c r : trim s = c :: r -> is_space c = false.
Proof.
  unfold trim. intro H.
  destruct (trimEnd_prefix (trimStart s)) as (w & Hw & _).
  rewrite H in Hw. simpl in Hw. exact (trimStart_head s c _ Hw).
Qed.

Lemma trim_last s c r : rev (trim s) = c :: r -> is_space c = false.
Proof.
  unfold trim, trimEnd. rewrite rev_involutive. apply trimStart_head.
Qed.

(** Trimming what is trimmed changes nothing. *)
Lemma trim_idempotent s : trim (trim s) = trim s.
Proof.
  unfold trim at 1.
  assert (H : trimStart (trim s) = trim s).
  { destruct (trim s) as [|c r] eqn:E; [reflexivity|].
    apply trimStart_fixed. exact (trim_head s c r E). }
  rewrite H. apply trimEnd_fixed. intros c r. apply trim_last.
Qed.

(** A text that starts with a character that is not white space does not
    trim to the empty string. *)
Lemma trim_nonblank c r : is_space c = false -> trim (c :: r) <> [].
Proof.
  intros Hc H. apply trim_nil_iff in H. simpl in H. rewrite Hc in H.
  discriminate.
Qed.

(* ================================================================== *)
(** * More on submitting *)
(* ================================================================== *)

(** [handleMessage] up to its [await], as a whole. *)
Lemma handleMessage_state message p svc kids :
  geminiService p = Some svc ->
  trim message <> [] ->
  messagesContainer p = Some kids ->
  handleMessage message p = (Normal tt, awaiting_reply message kids p).
Proof.
  intros Hsvc Htrim Hkids. apply truthy_true_iff in Htrim.
  unfold handleMessage, awaiting_reply. open_plugin p. rewrite Htrim. simpl.
  unfold appendChild. simpl. rewrite <- app_assoc. reflexivity.
Qed.

(** The continuation of [handleMessage], whatever the indicator it holds. *)
Lemma handleMessage_resume_state ind s p kids :
  messagesContainer p = Some kids ->
  handleMessage_resume ind s p
  = (Normal tt,
     match s with
     | Fulfilled response =>
         with_tasks
           (tasks p
            ++ [renderMarkdown_awaiting (next_uid p) response
                  (awaited_in_try ind)])
           (with_messagesContainer
              (Some (filter (fun k => negb (same_node k ind)) kids))
              (with_next_uid (S (next_uid p)) p))
     | Rejected =>
         with_messagesContainer
           (Some (filter (fun k => negb (same_node k ind)) kids
                  ++ [errorEl (next_uid p) failureText]))
           (with_next_uid (S (next_uid p)) p)
     end).
Proof.
  intro Hkids.
  unfold handleMessage_resume, addMessageToChat, createElement, suspend.
  open_plugin p. destruct s; reflexivity.
Qed.

(** X1. When the call succeeds, the continuation of [handleMessage]
    returns normally, takes the typing indicator out, builds the bot
    element for the answer and waits for its rendering: no message is put
    in the panel yet and no further call is made. When the rendering has
    succeeded, that one bot element, holding the answer as markdown, is
    put at the end of the panel as it is by then. When the rendering has
    failed, the [catch] puts the error message with the fixed text there
    instead, and nothing is thrown. *)
Theorem answered_call_appends_one_bot_message (n : nat)
    (response v : jsstring) (p q : Plugin) kids kids' :
  messagesContainer p = Some kids ->
  messagesContainer q = Some kids' ->
  handleMessage_resume (typingEl n) (Fulfilled response) p
  = (Normal tt,
     with_tasks
       (tasks p
        ++ [renderMarkdown_awaiting (next_uid p) response
              (awaited_in_try (typingEl n))])
       (with_messagesContainer
          (Some (filter (fun k => negb (same_node k (typingEl n))) kids))
          (with_next_uid (S (next_uid p)) p)))
  /\ ~ In (typingEl n)
         (children
            (after (handleMessage_resume (typingEl n) (Fulfilled response)) p))
  /\ conversation
       (after (handleMessage_resume (typingEl n) (Fulfilled response)) p)
     = conversation p
  /\ renderMarkdown_settled (next_uid p) response
       (awaited_in_try (typingEl n)) (Fulfilled v) q
     = (Normal tt,
        with_messagesContainer
          (Some (kids' ++ [botEl (next_uid p) response])) q)
  /\ completion
       (renderMarkdown_settled (next_uid p) response
          (awaited_in_try (typingEl n)) Rejected) q
     = Normal tt
  /\ conversation
       (after (renderMarkdown_settled (next_uid p) response
                 (awaited_in_try (typingEl n)) Rejected) q)
     = conversation q ++ [errorEl (next_uid q) failureText].
Proof.
  intros Hkids Hkids'.
  pose proof (handleMessage_resume_state (typingEl n) (Fulfilled response)
                p kids Hkids) as Hs.
  split; [exact Hs|]. unfold after, completion. rewrite Hs.
  rewrite (renderMarkdown_rejected_caught_state _ _ _ q kids' Hkids').
  repeat split.
  - unfold children. simpl. apply indicator_removed.
  - unfold conversation, children. simpl. rewrite Hkids.
    apply remove_indicator_keeps_messages.
  - apply (renderMarkdown_fulfilled_state _ _ _ v q kids' Hkids').
  - unfold conversation, children. simpl. rewrite Hkids'.
    rewrite filter_app, remove_indicator_keeps_messages. reflexivity.
Qed.

Lemma answered_call_appends_one_bot_message_witness :
  let waiting := after (handleMessage (lit "Hello")) configured in
  let answered :=
    after (handleMessage_resume (typingEl 1) (Fulfilled (lit "Hi"))) waiting in
  children waiting = [userEl 0 (lit "Hello"); typingEl 1]
  /\ children answered = [userEl 0 (lit "Hello")]
  /\ children
       (after (renderMarkdown_settled 2 (lit "Hi") (awaited_in_try (typingEl 1))
                 (Fulfilled [])) answered)
     = [userEl 0 (lit "Hello"); botEl 2 (lit "Hi")]
  /\ conversation
       (after (renderMarkdown_settled 2 (lit "Hi") (awaited_in_try (typingEl 1))
                 Rejected) answered)
     = [userEl 0 (lit "Hello"); errorEl 3 failureText].
Proof.
  intros waiting answered.
  destruct (answered_call_appends_one_bot_message 1 (lit "Hi") [] waiting
              answered [userEl 0 (lit "Hello"); typingEl 1]
              [userEl 0 (lit "Hello")])
    as (_ & _ & _ & H4 & _ & H6).
  - vm_compute. reflexivity.
  - vm_compute. reflexivity.
  - split; [vm_compute; reflexivity|].
    split; [vm_compute; reflexivity|].
    split.
    + unfold after. change (next_uid waiting) with 2%nat in H4.
      rewrite H4. reflexivity.
    + exact H6.
Defined.

(* ================================================================== *)
(** * The send button *)
(* ================================================================== *)

(** X2. A click on the send button, with a Model Client configured and a
    text in the input field that is not blank, submits the trimmed text:
    the user message and the prompt are built from it, and the input field
    is emptied. *)
Theorem send_click_submits_trimmed_text (p : Plugin) (f : TextArea)
    svc kids :
  inputField p = Some f ->
  trim (value f) <> [] ->
  geminiService p = Some svc ->
  messagesContainer p = Some kids ->
  sendButton_click p
  = (Normal tt,
     with_inputField (Some (emptied f))
       (awaiting_reply (trim (value f)) kids p)).
Proof.
  intros Hf Htrim Hsvc Hkids.
  assert (Htrim2 : trim (trim (value f)) <> []).
  { rewrite trim_idempotent. exact Htrim. }
  unfold sendButton_click, bind at 1, this at 1. rewrite Hf.
  apply truthy_true_iff in Htrim. rewrite Htrim.
  unfold bind.
  rewrite (handleMessage_state _ p svc kids Hsvc Htrim2 Hkids).
  reflexivity.
Qed.

Lemma send_click_submits_trimmed_text_witness :
  let typed := after (dispatch (Type_ (lit "  Hello "))) opened_on_note in
  children (after sendButton_click typed)
    = [userEl 0 (lit "Hello"); typingEl 1]
  /\ option_map value (inputField (after sendButton_click typed)) = Some []
  /\ remote (after sendButton_click typed)
     = [sendMessage (contextTemplate (lit "Doc text") (lit "Hello"))].
Proof.
  intro typed. unfold after.
  rewrite (send_click_submits_trimmed_text typed
             {| value := lit "  Hello ";
                placeholder := lit "Ask anything or select...";
                focused := true |}
             {| service_key := lit "abc123" |} []).
  - repeat split; vm_compute; reflexivity.
  - vm_compute. reflexivity.
  - vm_compute. discriminate.
  - vm_compute. reflexivity.
  - vm_compute. reflexivity.
Defined.

(** X3. Without a Model Client, the same click empties the input field
    and does nothing else: the text typed is dropped, with no message, no
    error and no call. *)
Theorem send_click_without_client_drops_text (p : Plugin) (f : TextArea) :
  inputField p = Some f ->
  trim (value f) <> [] ->
  geminiService p = None ->
  sendButton_click p = (Normal tt, with_inputField (Some (emptied f)) p).
Proof.
  intros Hf Htrim Hsvc.
  unfold sendButton_click, bind at 1, this at 1. rewrite Hf.
  apply truthy_true_iff in Htrim. rewrite Htrim.
  unfold bind. rewrite (handleMessage_guard _ p (or_intror Hsvc)).
  reflexivity.
Qed.

Lemma send_click_without_client_drops_text_witness :
  let typed := after (dispatch (Type_ (lit "Hello"))) unconfigured in
  option_map value (inputField typed) = Some (lit "Hello")
  /\ children (after sendButton_click typed) = []
  /\ remote (after sendButton_click typed) = []
  /\ option_map value (inputField (after sendButton_click typed)) = Some [].
Proof.
  intro typed. split; [vm_compute; reflexivity|]. unfold after.
  rewrite (send_click_without_client_drops_text typed
             {| value := lit "Hello";
                placeholder := lit "Ask anything or select...";
                focused := true |}).
  - repeat split; vm_compute; reflexivity.
  - vm_compute. reflexivity.
  - vm_compute. discriminate.
  - vm_compute. reflexivity.
Defined.

(* ================================================================== *)
(** * More on suggested actions *)
(* ================================================================== *)

Lemma actionButton_click_with_context textContent p text :
  currentFileContent p = Some text ->
  text <> [] ->
  actionButton_click textContent p
  = (let action := trim textContent in
     if eqb action (lit "Summarize this page") then
       handleMessage (summarizeTemplate text)
     else if eqb action (lit "Ask about this page") then
       match inputField p with
       | Some f =>
           assign (with_inputField
             (Some {| value := value f;
                      placeholder := lit "Ask a question about this page...";
                      focused := true |}))
       | None => ret tt
       end
     else if eqb action (lit "Find action items") then
       handleMessage (actionItemsTemplate text)
     else if eqb action (lit "Translate to") then
       showLanguageSelectionModal text
     else ret tt) (with_suggestedActions_display none p).
Proof.
  intros Hctx Hne. apply truthy_true_iff in Hne.
  unfold actionButton_click, bind at 1, this at 1. rewrite Hctx, Hne.
  cbv zeta. unfold bind at 1, toggleSuggestedActions, assign.
  reflexivity.
Qed.

(** X4. As the panel is written, a click on any of the four suggested
    action buttons, while a note text is held, only hides the suggested
    actions: the text of the button starts with its icon and matches no
    [case], so nothing is submitted, no picker opens, the input field is
    left alone. *)
Theorem rendered_buttons_only_hide_suggestions (b : ActionButton)
    (p : Plugin) :
  truthy_opt (currentFileContent p) = true ->
  actionButton_click (textContent_of b) p
  = (Normal tt, with_suggestedActions_display none p).
Proof.
  intro H. destruct (currentFileContent p) as [text|] eqn:Hctx;
    [|discriminate].
  simpl in H. apply truthy_true_iff in H.
  rewrite (actionButton_click_with_context _ p text Hctx H).
  destruct (rendered_button_matches_no_case b) as (E1 & E2 & E3 & E4).
  cbv zeta in *. rewrite E1, E2, E3, E4. reflexivity.
Qed.

Lemma rendered_buttons_only_hide_suggestions_witness :
  actionButton_click (textContent_of Summarize) opened_on_note
  = (Normal tt, with_suggestedActions_display none opened_on_note).
Proof.
  apply (rendered_buttons_only_hide_suggestions Summarize opened_on_note).
  vm_compute. reflexivity.
Defined.

Lemma label_cases :
  eqb (lit "Ask about this page") (lit "Summarize this page") = false
  /\ eqb (lit "Find action items") (lit "Summarize this page") = false
  /\ eqb (lit "Find action items") (lit "Ask about this page") = false.
Proof. repeat split; reflexivity. Qed.

Lemma instruction_templates_not_blank text :
  trim (summarizeTemplate text) <> []
  /\ trim (actionItemsTemplate text) <> [].
Proof. split; apply trim_nonblank; reflexivity. Qed.

(** X5. Where the listener's [switch] does reach [Summarize this page] or
    [Find action items], the instruction wrapped around the note text is
    submitted like a typed message: the user message shown holds the whole
    instruction with the note text, and the prompt wraps the note text
    around it once more. *)
Theorem instruction_actions_submit_template (summarize items text : jsstring)
    (p : Plugin) svc kids :
  trim summarize = lit "Summarize this page" ->
  trim items = lit "Find action items" ->
  currentFileContent p = Some text ->
  text <> [] ->
  geminiService p = Some svc ->
  messagesContainer p = Some kids ->
  children (after (actionButton_click summarize) p)
    = kids ++ [userEl (next_uid p) (summarizeTemplate text);
               typingEl (S (next_uid p))]
  /\ remote (after (actionButton_click summarize) p)
     = remote p
       ++ [sendMessage (contextTemplate text (summarizeTemplate text))]
  /\ children (after (actionButton_click items) p)
     = kids ++ [userEl (next_uid p) (actionItemsTemplate text);
                typingEl (S (next_uid p))]
  /\ remote (after (actionButton_click items) p)
     = remote p
       ++ [sendMessage (contextTemplate text (actionItemsTemplate text))].
Proof.
  intros Hs Hi Hctx Hne Hsvc Hkids.
  destruct (instruction_templates_not_blank text) as (Ts & Ti).
  destruct label_cases as (_ & E2 & E3).
  pose proof (proj2 (truthy_true_iff text) Hne) as Htr.
  unfold after.
  rewrite !(actionButton_click_with_context _ p text Hctx Hne).
  cbv zeta. rewrite Hs, Hi, E2, E3.
  change (eqb (lit "Summarize this page") (lit "Summarize this page"))
    with true.
  change (eqb (lit "Find action items") (lit "Find action items")) with true.
  cbv iota.
  rewrite (handleMessage_state (summarizeTemplate text)
             (with_suggestedActions_display none p) svc kids)
    by assumption.
  rewrite (handleMessage_state (actionItemsTemplate text)
             (with_suggestedActions_display none p) svc kids)
    by assumption.
  unfold awaiting_reply, children. simpl. rewrite Hctx.
  unfold contextMessage_of. rewrite Htr. repeat split; reflexivity.
Qed.

Lemma instruction_actions_submit_template_witness :
  remote (after (actionButton_click (lit "Summarize this page"))
            opened_on_note)
  = [sendMessage
       (contextTemplate (lit "Doc text") (summarizeTemplate (lit "Doc text")))].
Proof.
  destruct (instruction_actions_submit_template
              (lit "Summarize this page") (lit "Find action items")
              (lit "Doc text") opened_on_note
              {| service_key := lit "abc123" |} [])
    as (_ & H & _).
  - vm_compute. reflexivity.
  - vm_compute. reflexivity.
  - vm_compute. reflexivity.
  - vm_compute. discriminate.
  - vm_compute. reflexivity.
  - vm_compute. reflexivity.
  - exact H.
Defined.

(** X6. Where the [switch] reaches [Ask about this page], the input field
    is focused and its placeholder replaced; what is typed in it stays,
    nothing is put in the panel and nothing is sent. *)
Theorem ask_about_focuses_input (textContent text : jsstring) (p : Plugin)
    (f : TextArea) :
  trim textContent = lit "Ask about this page" ->
  currentFileContent p = Some text ->
  text <> [] ->
  inputField p = Some f ->
  actionButton_click textContent p
  = (Normal tt,
     with_inputField
       (Some {| value := value f;
                placeholder := lit "Ask a question about this page...";
                focused := true |})
       (with_suggestedActions_display none p)).
Proof.
  intros Hl Hctx Hne Hf.
  rewrite (actionButton_click_with_context _ p text Hctx Hne).
  cbv zeta. rewrite Hl. destruct label_cases as (E1 & _). rewrite E1.
  change (eqb (lit "Ask about this page") (lit "Ask about this page"))
    with true.
  cbv iota. rewrite Hf. reflexivity.
Qed.

Lemma ask_about_focuses_input_witness :
  let typed := after (dispatch (Type_ (lit "draft"))) opened_on_note in
  inputField (after (actionButton_click (lit "Ask about this page")) typed)
  = Some {| value := lit "draft";
            placeholder := lit "Ask a question about this page...";
            focused := true |}.
Proof.
  intro typed. unfold after.
  rewrite (ask_about_focuses_input (lit "Ask about this page")
             (lit "Doc text") typed
             {| value := lit "draft";
                placeholder := lit "Ask anything or select...";
                focused := true |}).
  - reflexivity.
  - vm_compute. reflexivity.
  - vm_compute. reflexivity.
  - vm_compute. discriminate.
  - vm_compute. reflexivity.
Defined.

(** The picker's callback, on the modal that waits at position [n]. *)
Lemma languageModal_accept_state n text language p svc :
  nth_error (tasks p) n = Some (languageModal_open text) ->
  geminiService p = Some svc ->
  languageModal_accept n language p
  = (Normal tt,
     with_tasks (drop_nth n (tasks p) ++ [translate_awaiting])
       (with_remote (remote p ++ [translateContent text language]) p)).
Proof.
  intros Hn Hsvc.
  unfold languageModal_accept, take_task, languageSelected, call, suspend.
  open_plugin p. simpl. rewrite Hn. simpl. reflexivity.
Qed.

(** X7. Where the [switch] reaches [Translate to], the picker is opened
    over the note text held at that moment; when a language is chosen
    later, that text is what is handed to [translateContent], whatever
    note text the plugin holds by then. *)
Theorem translate_sends_text_held_at_click (textContent text language : jsstring)
    (clicked chosen : Plugin) (n : nat) svc :
  trim textContent = lit "Translate to" ->
  currentFileContent clicked = Some text ->
  text <> [] ->
  nth_error (tasks chosen) n = Some (languageModal_open text) ->
  geminiService chosen = Some svc ->
  tasks (after (actionButton_click textContent) clicked)
    = tasks clicked ++ [languageModal_open text]
  /\ remote (after (dispatch (Choose n language)) chosen)
     = remote chosen ++ [translateContent text language]
  /\ tasks (after (dispatch (Choose n language)) chosen)
     = drop_nth n (tasks chosen) ++ [translate_awaiting]
  /\ children (after (dispatch (Choose n language)) chosen) = children chosen.
Proof.
  intros Hl Hctx Hne Hn Hsvc. split.
  - unfold after.
    rewrite (actionButton_click_with_context _ clicked text Hctx Hne).
    cbv zeta. rewrite Hl.
    destruct translate_label_cases as (E1 & E2 & E3 & E4).
    rewrite E1, E2, E3, E4. reflexivity.
  - unfold after, dispatch.
    rewrite (languageModal_accept_state n text language chosen svc Hn Hsvc).
    repeat split; reflexivity.
Qed.

Lemma translate_sends_text_held_at_click_witness :
  let waiting :=
    run [Settle 0 (Fulfilled (lit "Other text"))]
      (after (actionButton_click (lit "Translate to"))
         (run [ClickClose; ClickIcon] opened_on_note)) in
  currentFileContent waiting = Some (lit "Other text")
  /\ remote (after (dispatch (Choose 0 (lit "French"))) waiting)
     = [translateContent (lit "Doc text") (lit "French")].
Proof.
  intro waiting.
  destruct (translate_sends_text_held_at_click (lit "Translate to")
              (lit "Doc text") (lit "French") opened_on_note waiting 0
              {| service_key := lit "abc123" |})
    as (_ & H & _).
  - vm_compute. reflexivity.
  - vm_compute. reflexivity.
  - vm_compute. discriminate.
  - vm_compute. reflexivity.
  - vm_compute. reflexivity.
  - split; [vm_compute; reflexivity | exact H].
Defined.

(* ================================================================== *)
(** * The key in the settings *)
(* ================================================================== *)

Lemma forallb_false_iff {A} (f : A -> bool) l :
  forallb f l = false <-> exists x, In x l /\ f x = false.
Proof.
  induction l as [|a l IH]; simpl.
  - split; [discriminate | intros (x & [] & _)].
  - rewrite andb_false_iff, IH. split.
    + intros [H | (x & Hx & Hf)]; [exists a | exists x]; auto.
    + intros (x & [-> | Hx] & Hf); [left | right; exists x]; auto.
Qed.

Lemma encryptApiKey_wide key c :
  In c key -> 255 < c -> encryptApiKey key = None.
Proof.
  intros Hc Hlt. unfold encryptApiKey, Base64.btoa, reverse.
  match goal with
  | |- context [forallb ?f ?l] => destruct (forallb f l) eqn:E
  end; [|reflexivity].
  pose proof (proj1 (forallb_forall _ _) E c (proj1 (in_rev _ _) Hc)) as H.
  apply N.leb_le in H. lia.
Qed.

(** X8. [encryptApiKey] throws exactly on the keys that hold a character
    above U+00FF; on every other key it returns a stored form. *)
Theorem encryptApiKey_throws_iff (key : jsstring) :
  encryptApiKey key = None <-> exists c, In c key /\ 255 < c.
Proof.
  split; [|intros (c & Hc & Hlt); exact (encryptApiKey_wide key c Hc Hlt)].
  unfold encryptApiKey, Base64.btoa, reverse.
  match goal with
  | |- context [forallb ?f ?l] => destruct (forallb f l) eqn:E
  end.
  - discriminate.
  - intros _.
    apply forallb_false_iff in E as (c & Hc & Hf).
    exists c. split; [apply in_rev; exact Hc|].
    apply N.leb_gt in Hf. exact Hf.
Qed.

(** X9. Two keys with the same stored form are the same key. *)
Theorem encryptApiKey_injective (key key' stored : jsstring) :
  encryptApiKey key = Some stored ->
  encryptApiKey key' = Some stored ->
  key = key'.
Proof.
  intros H H'. apply decrypt_encrypt in H, H'. congruence.
Qed.

Lemma encryptApiKey_injective_witness :
  encryptApiKey (lit "abc123") = Some (lit "MzIxY2Jh")
  /\ lit "abc123" = lit "abc123".
Proof.
  split; [vm_compute; reflexivity|].
  apply (encryptApiKey_injective (lit "abc123") (lit "abc123")
           (lit "MzIxY2Jh"));
    vm_compute; reflexivity.
Defined.

Lemma latin1_not_masked v : latin1 v -> eqb v masked = false.
Proof.
  intro H. destruct (eqb v masked) eqn:E; [|reflexivity].
  apply eqb_eq in E. subst v. apply Forall_inv in H. simpl in H. lia.
Qed.

Lemma encode_not_empty bytes : bytes <> [] -> Base64.encode bytes <> [].
Proof.
  destruct bytes as [|a [|b [|c rest]]]; intro H; simpl;
    [contradiction H; reflexivity | discriminate ..].
Qed.

Lemma encryptApiKey_latin1 v :
  latin1 v -> v <> [] ->
  exists stored, encryptApiKey v = Some stored /\ stored <> [].
Proof.
  intros H Hne. exists (Base64.encode (reverse v)). split.
  - apply Base64Facts.btoa_latin1. apply latin1_reverse. exact H.
  - apply encode_not_empty. unfold reverse. intro E. apply Hne.
    rewrite <- (rev_involutive v), E. reflexivity.
Qed.

(** [initializeGeminiService] on a stored key that is not empty. *)
Lemma initializeGeminiService_state p :
  settings_apiKey p <> [] ->
  initializeGeminiService p
  = (Normal tt,
     match decryptApiKey (settings_apiKey p) with
     | Some k => with_geminiService (Some {| service_key := k |}) p
     | None =>
         with_console
           (console p ++ [lit "Failed to initialize Gemini service:"]) p
     end).
Proof.
  intro H. apply truthy_true_iff in H.
  unfold initializeGeminiService, try_catch, bind, this, native, assign,
    console_error, ret, throw.
  rewrite H. destruct (decryptApiKey (settings_apiKey p)); reflexivity.
Qed.

Lemma encrypted_not_masked v stored :
  encryptApiKey v = Some stored -> eqb v masked = false.
Proof.
  intro E. destruct (eqb v masked) eqn:Em; [|reflexivity].
  apply eqb_eq in Em. subst v. vm_compute in E. discriminate.
Qed.

Lemma encrypted_not_empty v stored :
  encryptApiKey v = Some stored -> v <> [] -> stored <> [].
Proof.
  unfold encryptApiKey, Base64.btoa, reverse. intros E Hne.
  match type of E with
  | context [forallb ?f ?l] => destruct (forallb f l)
  end; [|discriminate].
  injection E as <-. apply encode_not_empty. intro R. apply Hne.
  rewrite <- (rev_involutive v), R. reflexivity.
Qed.

(** The key field's [onChange] up to its [await]. *)
Lemma apiKey_onChange_state v stored p :
  encryptApiKey v = Some stored ->
  apiKey_onChange v p
  = (Normal tt,
     with_tasks (tasks p ++ [saveSettings_awaiting stored])
       (with_apiKey stored p)).
Proof.
  intro E. unfold apiKey_onChange. rewrite (encrypted_not_masked v stored E).
  cbv iota beta. unfold negb, bind at 1, native. rewrite E. reflexivity.
Qed.

(** The [onChange] after its [await], the save having resolved, when the
    settings hold a key that is not empty. *)
Lemma saveSettings_fulfilled_state snapshot r q :
  settings_apiKey q <> [] ->
  saveSettings_settled snapshot (Fulfilled r) q
  = (Normal tt,
     match decryptApiKey (settings_apiKey q) with
     | Some k =>
         with_geminiService (Some {| service_key := k |})
           (with_saved_apiKey (Some snapshot) q)
     | None =>
         with_console
           (console q ++ [lit "Failed to initialize Gemini service:"])
           (with_saved_apiKey (Some snapshot) q)
     end).
Proof.
  intro H. unfold saveSettings_settled, await, bind, ret, assign.
  rewrite (initializeGeminiService_state (with_saved_apiKey (Some snapshot) q)
             H).
  reflexivity.
Qed.

(** X10. Typing a key that [encryptApiKey] accepts stores its obfuscated
    form in the settings and starts the save; the client is not touched
    yet. When the save has resolved, with the settings still holding that
    form, the form is what is saved and the client is built with the key
    itself. When the save has failed, the listener's promise is rejected
    with nobody to handle it: nothing is saved and no client is built. *)
Theorem key_change_configures_client (v stored r : jsstring)
    (p q : Plugin) :
  encryptApiKey v = Some stored ->
  v <> [] ->
  settings_apiKey q = stored ->
  apiKey_onChange v p
  = (Normal tt,
     with_tasks (tasks p ++ [saveSettings_awaiting stored])
       (with_apiKey stored p))
  /\ saveSettings_settled stored (Fulfilled r) q
     = (Normal tt,
        with_geminiService (Some {| service_key := v |})
          (with_saved_apiKey (Some stored) q))
  /\ saveSettings_settled stored Rejected q = (Throw RejectedPromise, q).
Proof.
  intros E Hne Hq. split; [exact (apiKey_onChange_state v stored p E)|].
  split; [|reflexivity].
  assert (Hs : settings_apiKey q <> []).
  { rewrite Hq. exact (encrypted_not_empty v stored E Hne). }
  rewrite (saveSettings_fulfilled_state stored r q Hs), Hq.
  rewrite (decrypt_encrypt _ _ E). reflexivity.
Qed.

Lemma key_change_configures_client_witness :
  let changed := after (apiKey_onChange (lit "abc123")) unconfigured in
  tasks changed = [saveSettings_awaiting (lit "MzIxY2Jh")]
  /\ geminiService changed = None
  /\ saveSettings_settled (lit "MzIxY2Jh") (Fulfilled []) changed
     = (Normal tt,
        with_geminiService (Some {| service_key := lit "abc123" |})
          (with_saved_apiKey (Some (lit "MzIxY2Jh")) changed))
  /\ saveSettings_settled (lit "MzIxY2Jh") Rejected changed
     = (Throw RejectedPromise, changed).
Proof.
  intro changed.
  destruct (key_change_configures_client (lit "abc123") (lit "MzIxY2Jh") []
              unconfigured changed)
    as (_ & H2 & H3).
  - vm_compute. reflexivity.
  - discriminate.
  - vm_compute. reflexivity.
  - repeat split; try assumption; vm_compute; reflexivity.
Defined.

(** X11. Typing a key that holds a character above U+00FF makes the
    listener throw before anything is stored: the saved key and the client
    are what they were. *)
Theorem key_change_rejects_wide_character (v : jsstring) (c : codeunit)
    (p : Plugin) :
  In c v ->
  255 < c ->
  v <> masked ->
  apiKey_onChange v p = (Throw InvalidCharacterError, p).
Proof.
  intros Hc Hlt Hm.
  assert (E : encryptApiKey v = None).
  { exact (encryptApiKey_wide v c Hc Hlt). }
  unfold apiKey_onChange.
  destruct (eqb v masked) eqn:Em.
  - apply eqb_eq in Em. contradiction.
  - simpl. unfold bind, native. rewrite E. reflexivity.
Qed.

Lemma key_change_rejects_wide_character_witness :
  apiKey_onChange [8364] configured = (Throw InvalidCharacterError, configured).
Proof.
  apply (key_change_rejects_wide_character [8364] 8364 configured).
  - left. reflexivity.
  - reflexivity.
  - discriminate.
Defined.

(** X12. Emptying the key field stores the empty key and leaves the
    client that was built before, at once and when the save has settled,
    whichever way and whatever has happened meanwhile with the key still
    empty: the plugin goes on calling the model with the old key. *)
Theorem key_cleared_keeps_client (p q : Plugin) (s : Settled) :
  apiKey_onChange [] p
  = (Normal tt,
     with_tasks (tasks p ++ [saveSettings_awaiting []]) (with_apiKey [] p))
  /\ geminiService (after (apiKey_onChange []) p) = geminiService p
  /\ geminiService (after (saveSettings_settled [] s) (with_apiKey [] q))
     = geminiService q.
Proof.
  assert (H : apiKey_onChange [] p
    = (Normal tt,
       with_tasks (tasks p ++ [saveSettings_awaiting []])
         (with_apiKey [] p))).
  { apply apiKey_onChange_state. reflexivity. }
  split; [exact H|]. split.
  - unfold after. rewrite H. reflexivity.
  - unfold saveSettings_settled, initializeGeminiService.
    open_plugin q. destruct s; reflexivity.
Qed.

(** X13. [initializeGeminiService] never throws; on a stored key that
    [atob] rejects, it writes to the console and leaves the client as it
    was. *)
Theorem initialize_survives_bad_stored_key (p : Plugin) :
  decryptApiKey (settings_apiKey p) = None ->
  initializeGeminiService p
  = (Normal tt,
     with_console (console p ++ [lit "Failed to initialize Gemini service:"])
       p).
Proof.
  intro H.
  assert (Hne : settings_apiKey p <> []).
  { intro E. rewrite E in H. discriminate. }
  rewrite (initializeGeminiService_state p Hne), H. reflexivity.
Qed.

Lemma initialize_survives_bad_stored_key_witness :
  geminiService
    (after initializeGeminiService (with_apiKey (lit "a") configured))
  = Some {| service_key := lit "abc123" |}.
Proof.
  unfold after.
  rewrite (initialize_survives_bad_stored_key
             (with_apiKey (lit "a") configured)).
  - vm_compute. reflexivity.
  - vm_compute. reflexivity.
Defined.

(** [onload] on a saved key that is not empty. *)
Lemma onload_state stored :
  stored <> [] ->
  after (onload (Some stored)) constructed
  = snd (addChatContainer
           (snd (initializeGeminiService (with_apiKey stored constructed)))).
Proof.
  intro H. unfold after, onload, bind at 1 2 3. unfold assign at 1, this at 1.
  change (settings_apiKey (with_apiKey stored constructed)) with stored.
  rewrite (proj2 (truthy_true_iff stored) H).
  pose proof (initializeGeminiService_returns
                (with_apiKey stored constructed)) as R.
  destruct (initializeGeminiService (with_apiKey stored constructed))
    as [[[]|e] q]; simpl in R; [reflexivity | discriminate].
Qed.

(** X14. A key typed in the settings survives a reload once its save has
    resolved: the saved data hold its obfuscated form, and [onload] on the
    saved data builds the client that the key change has built. When the
    save has failed the saved data are what they were. *)
Theorem saved_key_survives_reload (v r : jsstring) (p : Plugin) :
  latin1 v ->
  v <> [] ->
  let changed := after (apiKey_onChange v) p in
  let stored := settings_apiKey changed in
  let saved := after (saveSettings_settled stored (Fulfilled r)) changed in
  encryptApiKey v = Some stored
  /\ saved_apiKey saved = Some stored
  /\ geminiService saved = Some {| service_key := v |}
  /\ geminiService (after (onload (saved_apiKey saved)) constructed)
     = geminiService saved
  /\ saved_apiKey (after (saveSettings_settled stored Rejected) changed)
     = saved_apiKey p.
Proof.
  intros H Hne.
  destruct (encryptApiKey_latin1 v H Hne) as (stored & E & Hs).
  pose proof (apiKey_onChange_state v stored p E) as Hch.
  assert (Hc : after (apiKey_onChange v) p
               = with_tasks (tasks p ++ [saveSettings_awaiting stored])
                   (with_apiKey stored p)).
  { unfold after. rewrite Hch. reflexivity. }
  rewrite Hc. clear Hc Hch. cbv zeta.
  change (settings_apiKey
            (with_tasks (tasks p ++ [saveSettings_awaiting stored])
               (with_apiKey stored p))) with stored.
  assert (Hf : after (saveSettings_settled stored (Fulfilled r))
                 (with_tasks (tasks p ++ [saveSettings_awaiting stored])
                    (with_apiKey stored p))
               = with_geminiService (Some {| service_key := v |})
                   (with_saved_apiKey (Some stored)
                      (with_tasks (tasks p ++ [saveSettings_awaiting stored])
                         (with_apiKey stored p)))).
  { unfold after.
    rewrite (saveSettings_fulfilled_state stored r
               (with_tasks (tasks p ++ [saveSettings_awaiting stored])
                  (with_apiKey stored p)) Hs).
    change (settings_apiKey
              (with_tasks (tasks p ++ [saveSettings_awaiting stored])
                 (with_apiKey stored p))) with stored.
    rewrite (decrypt_encrypt _ _ E). reflexivity. }
  rewrite Hf. clear Hf.
  split; [exact E|]. split; [reflexivity|]. split; [reflexivity|].
  split; [|reflexivity].
  change (saved_apiKey
            (with_geminiService (Some {| service_key := v |})
               (with_saved_apiKey (Some stored)
                  (with_tasks (tasks p ++ [saveSettings_awaiting stored])
                     (with_apiKey stored p))))) with (Some stored).
  change (geminiService
            (with_geminiService (Some {| service_key := v |})
               (with_saved_apiKey (Some stored)
                  (with_tasks (tasks p ++ [saveSettings_awaiting stored])
                     (with_apiKey stored p)))))
    with (Some {| service_key := v |}).
  pose proof (onload_state stored Hs) as Hload.
  unfold jsstring in *. rewrite Hload.
  rewrite (initializeGeminiService_state (with_apiKey stored constructed) Hs).
  simpl. rewrite (decrypt_encrypt _ _ E). reflexivity.
Qed.

Lemma saved_key_survives_reload_witness :
  let changed := after (apiKey_onChange (lit "abc123")) unconfigured in
  let saved :=
    after (saveSettings_settled (lit "MzIxY2Jh") (Fulfilled [])) changed in
  saved_apiKey saved = Some (lit "MzIxY2Jh")
  /\ geminiService (after (onload (saved_apiKey saved)) constructed)
     = Some {| service_key := lit "abc123" |}.
Proof.
  intros changed saved.
  destruct (saved_key_survives_reload (lit "abc123") [] unconfigured)
    as (_ & H2 & H3 & H4 & _).
  - apply printable_latin1. unfold printable.
    repeat constructor; discriminate.
  - discriminate.
  - split; [exact H2|]. unfold saved, changed.
    etransitivity; [exact H4 | exact H3].
Defined.

(* ================================================================== *)
(** * What the listeners keep *)
(* ================================================================== *)

(** ** The client, once built, stays *)

Lemma client_appendChild el p :
  client_configured p -> client_configured (appendChild el p).
Proof.
  unfold client_configured, appendChild.
  destruct (messagesContainer p); simpl; auto.
Qed.

Lemma client_remove el : preserves client_configured (remove el).
Proof.
  unfold remove. apply preserves_assign. intros p H.
  unfold client_configured in *. destruct (messagesContainer p); simpl; auto.
Qed.

Create HintDb client.
#[local] Hint Resolve client_appendChild client_remove : client.

Ltac client_side :=
  unfold client_configured in *; simpl; assumption || discriminate.

Ltac keeps_client := preserves_with fail ltac:(eauto with client) client_side.

Lemma client_suspend t : preserves client_configured (suspend t).
Proof. unfold suspend. keeps_client. Qed.

Lemma client_createElement c i :
  preserves client_configured (createElement c i).
Proof. unfold createElement. keeps_client. Qed.

#[local] Hint Resolve client_suspend client_createElement : client.

Lemma client_addMessageToChat m a :
  preserves client_configured (addMessageToChat m a).
Proof. unfold addMessageToChat. keeps_client. Qed.

Lemma client_addErrorMessage m :
  preserves client_configured (addErrorMessage m).
Proof. unfold addErrorMessage. keeps_client. Qed.

#[local] Hint Resolve client_addMessageToChat client_addErrorMessage : client.

Lemma client_handleMessage message :
  preserves client_configured (handleMessage message).
Proof.
  unfold handleMessage, toggleSuggestedActions, now, call. keeps_client.
Qed.

Lemma client_handleMessage_resume el s :
  preserves client_configured (handleMessage_resume el s).
Proof. unfold handleMessage_resume, await, now. keeps_client. Qed.

Lemma client_translate_settled s :
  preserves client_configured (translate_settled s).
Proof. unfold translate_settled, now, console_error. keeps_client. Qed.

Lemma client_renderMarkdown_settled n src a s :
  preserves client_configured (renderMarkdown_settled n src a s).
Proof.
  unfold renderMarkdown_settled, messagesContainer_appendChild, await.
  cbv zeta. keeps_client.
Qed.

#[local] Hint Resolve client_handleMessage client_handleMessage_resume
  client_translate_settled client_renderMarkdown_settled : client.

Lemma client_dispatch e : preserves client_configured (dispatch e).
Proof.
  destruct e; unfold dispatch, languageModal_accept, languageSelected,
    inputField_keydown, sendButton_click, actionButton_click,
    showLanguageSelectionModal, toggleChatContainer, updateChatHeader,
    toggleSuggestedActions, apiKey_onChange, saveSettings_settled,
    initializeGeminiService, native, vaultRead_settled, await, take_task,
    call, console_error;
  keeps_client.
Qed.

(** X16. No listener ever sets the client back to [null]: once a key has
    built a client, the plugin keeps one through any sequence of events,
    also after the key is emptied in the settings. *)
Theorem client_stays_configured (es : list Event) (p : Plugin) :
  client_configured p -> client_configured (run es p).
Proof. apply (run_preserves client_configured client_dispatch). Qed.

Lemma client_stays_configured_witness :
  geminiService
    (run [ChangeKey []; ClickIcon; Type_ (lit "Hello"); ClickSend] configured)
  <> None.
Proof.
  apply (client_stays_configured
           [ChangeKey []; ClickIcon; Type_ (lit "Hello"); ClickSend]
           configured).
  unfold client_configured. vm_compute. discriminate.
Defined.

(** ** The note text is written by a settled read only *)

Section Context.
Variable c : option jsstring.

Lemma context_appendChild el p :
  holds_context c p -> holds_context c (appendChild el p).
Proof.
  unfold holds_context, appendChild.
  destruct (messagesContainer p); simpl; auto.
Qed.

Lemma context_remove el : preserves (holds_context c) (remove el).
Proof.
  unfold remove. apply preserves_assign. intros p H.
  unfold holds_context in *. destruct (messagesContainer p); simpl; auto.
Qed.

End Context.

Create HintDb context.
#[local] Hint Resolve context_appendChild context_remove : context.

Ltac context_side := unfold holds_context in *; simpl; assumption.

Ltac keeps_context :=
  preserves_with fail ltac:(eauto with context) context_side.

Lemma context_suspend c t : preserves (holds_context c) (suspend t).
Proof. unfold suspend. keeps_context. Qed.

Lemma context_createElement c cls i :
  preserves (holds_context c) (createElement cls i).
Proof. unfold createElement. keeps_context. Qed.

#[local] Hint Resolve context_suspend context_createElement : context.

Lemma context_addMessageToChat c m a :
  preserves (holds_context c) (addMessageToChat m a).
Proof. unfold addMessageToChat. keeps_context. Qed.

Lemma context_addErrorMessage c m :
  preserves (holds_context c) (addErrorMessage m).
Proof. unfold addErrorMessage. keeps_context. Qed.

#[local] Hint Resolve context_addMessageToChat context_addErrorMessage
  : context.

Lemma context_handleMessage c message :
  preserves (holds_context c) (handleMessage message).
Proof.
  unfold handleMessage, toggleSuggestedActions, now, call. keeps_context.
Qed.

Lemma context_handleMessage_resume c el s :
  preserves (holds_context c) (handleMessage_resume el s).
Proof. unfold handleMessage_resume, await, now. keeps_context. Qed.

Lemma context_translate_settled c s :
  preserves (holds_context c) (translate_settled s).
Proof. unfold translate_settled, now, console_error. keeps_context. Qed.

Lemma context_renderMarkdown_settled c n src a s :
  preserves (holds_context c) (renderMarkdown_settled n src a s).
Proof.
  unfold renderMarkdown_settled, messagesContainer_appendChild, await.
  cbv zeta. keeps_context.
Qed.

Lemma context_saveSettings_settled c snapshot s :
  preserves (holds_context c) (saveSettings_settled snapshot s).
Proof.
  unfold saveSettings_settled, await, initializeGeminiService, native,
    console_error.
  keeps_context.
Qed.

Lemma context_take_task c n : preserves (holds_context c) (take_task n).
Proof. unfold take_task. keeps_context. Qed.

(** A read that has failed writes nothing. *)
Lemma context_vaultRead_rejected c :
  preserves (holds_context c) (vaultRead_settled Rejected).
Proof. intros p H. exact H. Qed.

#[local] Hint Resolve context_handleMessage context_handleMessage_resume
  context_translate_settled context_renderMarkdown_settled
  context_saveSettings_settled context_take_task context_vaultRead_rejected
  : context.

(** X17. The note text held changes only when a read of the open note
    settles with its text. No other event touches it: not a change of the
    open note, not closing or opening the panel, not a message, an action
    or a failed read. *)
Theorem context_written_by_settled_read_only (e : Event) (p : Plugin) :
  (forall n v, e = Settle n (Fulfilled v) ->
     nth_error (tasks p) n <> Some vaultRead_awaiting) ->
  currentFileContent (after (dispatch e) p) = currentFileContent p.
Proof.
  intro H.
  assert (K : preserves (holds_context (currentFileContent p)) (dispatch e)
              \/ exists n v, e = Settle n (Fulfilled v)).
  { destruct e as [ | | | b | text | key shift | v | f | t | n [v|] | n l];
      try (left;
           unfold dispatch, languageModal_accept, languageSelected,
             inputField_keydown, sendButton_click, actionButton_click,
             showLanguageSelectionModal, toggleChatContainer,
             updateChatHeader, toggleSuggestedActions, apiKey_onChange,
             initializeGeminiService, native, take_task, call,
             console_error;
           keeps_context; fail).
    right. exists n, v. reflexivity. }
  destruct K as [K | (n & v & ->)].
  - exact (K p eq_refl).
  - specialize (H n v eq_refl).
    unfold after, dispatch, bind at 1, this at 1.
    destruct (nth_error (tasks p) n)
      as [[ind | | | text | el src a | snapshot]|] eqn:E;
      try reflexivity.
    + apply (preserves_bind (holds_context (currentFileContent p))
               (take_task n) (fun _ => handleMessage_resume ind (Fulfilled v)));
        [auto with context | intro; auto with context | reflexivity].
    + apply (preserves_bind (holds_context (currentFileContent p))
               (take_task n) (fun _ => translate_settled (Fulfilled v)));
        [auto with context | intro; auto with context | reflexivity].
    + contradiction H. reflexivity.
    + apply (preserves_bind (holds_context (currentFileContent p))
               (take_task n)
               (fun _ => renderMarkdown_settled el src a (Fulfilled v)));
        [auto with context | intro; auto with context | reflexivity].
    + apply (preserves_bind (holds_context (currentFileContent p))
               (take_task n)
               (fun _ => saveSettings_settled snapshot (Fulfilled v)));
        [auto with context | intro; auto with context | reflexivity].
Qed.

Lemma context_written_by_settled_read_only_witness :
  currentFileContent
    (after (dispatch (OpenFile (Some {| basename := lit "other" |})))
       opened_on_note)
  = Some (lit "Doc text").
Proof.
  rewrite (context_written_by_settled_read_only
             (OpenFile (Some {| basename := lit "other" |})) opened_on_note).
  - vm_compute. reflexivity.
  - intros n v H. discriminate H.
Defined.

(* ================================================================== *)
(** * Calls that overlap or outlive the session *)
(* ================================================================== *)

Lemma nth_error_app_left {A} (l l' : list A) n a :
  nth_error l n = Some a -> nth_error (l ++ l') n = Some a.
Proof.
  intro H. rewrite nth_error_app1; [exact H|].
  apply nth_error_Some. rewrite H. discriminate.
Qed.

(** The plugin after the panel is closed and opened. *)
Lemma reopened_state p kids :
  messagesContainer p = Some kids ->
  chatContainer_display p <> none ->
  exists q,
    run [ClickClose; ClickIcon] p = q
    /\ messagesContainer q = Some []
    /\ next_uid q = next_uid p
    /\ (exists more, tasks q = tasks p ++ more).
Proof.
  intros Hkids Hd. eexists. split; [reflexivity|].
  unfold run, dispatch, toggleChatContainer, updateChatHeader,
    toggleSuggestedActions, suspend.
  open_plugin p.
  destruct chatContainer_display0; try (contradiction Hd; reflexivity);
    destruct workspace_activeFile0; simpl;
    repeat split; try reflexivity;
    (exists [vaultRead_awaiting]; reflexivity)
    || (exists []; symmetry; apply app_nil_r).
Qed.

Lemma nth_error_last {A} (l : list A) a :
  nth_error (l ++ [a]) (List.length l) = Some a.
Proof.
  rewrite nth_error_app2 by apply Nat.le_refl.
  rewrite Nat.sub_diag. reflexivity.
Qed.

(** A rendering that settles: its task is taken and its continuation
    runs. *)
Lemma settle_render_state j n src a s p :
  nth_error (tasks p) j = Some (renderMarkdown_awaiting n src a) ->
  dispatch (Settle j s) p
  = renderMarkdown_settled n src a s (with_tasks (drop_nth j (tasks p)) p).
Proof.
  intro H. unfold dispatch, bind at 1, this at 1. rewrite H.
  unfold bind at 1, take_task, bind, this, assign, ret. reflexivity.
Qed.

(** X18. A call still waiting when the panel is closed is not cancelled.
    Once the panel is opened again and the call succeeds, the panel that
    has just been emptied stays empty while the answer is rendered; when
    the rendering has succeeded the answer is its only element, and when
    the rendering has failed the error message is. *)
Theorem late_answer_lands_in_reopened_panel (p : Plugin) kids
    (ind : Element) (i : nat) (response v : jsstring) :
  messagesContainer p = Some kids ->
  chatContainer_display p <> none ->
  nth_error (tasks p) i = Some (handleMessage_awaiting ind) ->
  let reopened :=
    run [ClickClose; ClickIcon; Settle i (Fulfilled response)] p in
  children reopened = []
  /\ exists j,
       nth_error (tasks reopened) j
       = Some (renderMarkdown_awaiting (next_uid p) response
                 (awaited_in_try ind))
       /\ children (run [Settle j (Fulfilled v)] reopened)
          = [botEl (next_uid p) response]
       /\ children (run [Settle j Rejected] reopened)
          = [errorEl (S (next_uid p)) failureText].
Proof.
  intros Hkids Hd Hi.
  destruct (reopened_state p kids Hkids Hd)
    as (q & Hq & Hm & Hn & more & Ht).
  change (run [ClickClose; ClickIcon; Settle i (Fulfilled response)] p)
    with (after (dispatch (Settle i (Fulfilled response)))
            (run [ClickClose; ClickIcon] p)).
  rewrite Hq.
  assert (Hi' : nth_error (tasks q) i = Some (handleMessage_awaiting ind)).
  { rewrite Ht. apply nth_error_app_left. exact Hi. }
  assert (Hr : after (dispatch (Settle i (Fulfilled response))) q
    = with_tasks
        (drop_nth i (tasks q)
         ++ [renderMarkdown_awaiting (next_uid p) response
               (awaited_in_try ind)])
        (with_messagesContainer (Some [])
           (with_next_uid (S (next_uid p))
              (with_tasks (drop_nth i (tasks q)) q)))).
  { unfold after, dispatch, bind at 1, this at 1. rewrite Hi'.
    unfold bind at 1, take_task, bind, this, assign, ret. simpl.
    rewrite (handleMessage_resume_state ind (Fulfilled response)
               (with_tasks (drop_nth i (tasks q)) q) [] Hm).
    simpl. rewrite Hn. reflexivity. }
  rewrite Hr. clear Hr. cbv zeta. split; [reflexivity|].
  exists (List.length (drop_nth i (tasks q))).
  match goal with
  | |- nth_error (tasks ?r) ?j = Some ?t /\ _ =>
      assert (Hj : nth_error (tasks r) j = Some t)
        by apply nth_error_last;
      split; [exact Hj|]; unfold run, after;
      rewrite !(settle_render_state _ _ _ _ _ r Hj)
  end.
  erewrite renderMarkdown_fulfilled_state by reflexivity.
  erewrite renderMarkdown_rejected_caught_state by reflexivity.
  split; reflexivity.
Qed.

Lemma late_answer_lands_in_reopened_panel_witness :
  let waiting := run [Type_ (lit "Hello"); ClickSend] opened_on_note in
  let reopened :=
    run [ClickClose; ClickIcon; Settle 0 (Fulfilled (lit "Hi"))] waiting in
  children waiting = [userEl 0 (lit "Hello"); typingEl 1]
  /\ children reopened = []
  /\ children (run [Settle 1 (Fulfilled [])] reopened) = [botEl 2 (lit "Hi")]
  /\ children (run [Settle 1 Rejected] reopened) = [errorEl 3 failureText].
Proof.
  intros waiting reopened. split; [vm_compute; reflexivity|].
  destruct (late_answer_lands_in_reopened_panel waiting
              [userEl 0 (lit "Hello"); typingEl 1] (typingEl 1) 0 (lit "Hi")
              [])
    as (H1 & j & _ & _ & _).
  - vm_compute. reflexivity.
  - vm_compute. discriminate.
  - vm_compute. reflexivity.
  - split; [exact H1|]. split; vm_compute; reflexivity.
Defined.

Lemma same_node_refl e : same_node e e = true.
Proof.
  unfold same_node. rewrite Nat.eqb_refl.
  destruct (className e) as [[]| |]; reflexivity.
Qed.

Lemma same_node_uid e f : uid e <> uid f -> same_node e f = false.
Proof.
  intro H. unfold same_node. apply Nat.eqb_neq in H. rewrite H. reflexivity.
Qed.

(** X19. A message submitted while another call is waiting is not held
    back: both user messages and both typing indicators are in the panel
    and both prompts are sent. When the second call succeeds first, its
    indicator is taken out, the indicator of the first stays, and the
    answer waits for its rendering. Once rendered it is put at the end of
    the panel as it is by then: after the indicator of the first call when
    nothing has happened meanwhile, and after the error message of the
    first call when that call has failed meanwhile. *)
Theorem submissions_overlap (first second response v : jsstring)
    (p : Plugin) svc kids :
  geminiService p = Some svc ->
  trim first <> [] ->
  trim second <> [] ->
  messagesContainer p = Some kids ->
  uids_fresh p ->
  let n := next_uid p in
  let both := after (handleMessage second) (after (handleMessage first) p) in
  let answered :=
    after (handleMessage_resume (typingEl (3 + n)) (Fulfilled response))
      both in
  let rendered :=
    renderMarkdown_settled (4 + n) response
      (awaited_in_try (typingEl (3 + n))) (Fulfilled v) in
  children both
    = kids ++ [userEl n first; typingEl (1 + n);
               userEl (2 + n) second; typingEl (3 + n)]
  /\ remote both
     = remote p
       ++ [sendMessage (contextMessage_of (currentFileContent p) first);
           sendMessage (contextMessage_of (currentFileContent p) second)]
  /\ children answered
     = kids ++ [userEl n first; typingEl (1 + n); userEl (2 + n) second]
  /\ tasks answered
     = tasks both
       ++ [renderMarkdown_awaiting (4 + n) response
             (awaited_in_try (typingEl (3 + n)))]
  /\ children (after rendered answered)
     = kids ++ [userEl n first; typingEl (1 + n);
                userEl (2 + n) second; botEl (4 + n) response]
  /\ children
       (after rendered
          (after (handleMessage_resume (typingEl (1 + n)) Rejected) answered))
     = kids ++ [userEl n first; userEl (2 + n) second;
                errorEl (5 + n) failureText; botEl (4 + n) response].
Proof.
  intros Hsvc H1 H2 Hkids [_ Hlt] n both answered rendered.
  assert (Hf : forall m, (n <= m)%nat ->
            filter (fun k => negb (same_node k (typingEl m))) kids = kids).
  { intros m Hm. apply filter_keeps_all.
    unfold children in Hlt. rewrite Hkids in Hlt.
    eapply Forall_impl; [|exact Hlt]. intros k Hk. cbv beta in Hk.
    rewrite same_node_uid; [reflexivity | simpl; fold n; lia]. }
  assert (Hb : both
    = awaiting_reply second
        (kids ++ [userEl n first; typingEl (1 + n)])
        (awaiting_reply first kids p)).
  { unfold both, after.
    rewrite (handleMessage_state first p svc kids Hsvc H1 Hkids). simpl.
    rewrite (handleMessage_state second (awaiting_reply first kids p) svc
               (kids ++ [userEl n first; typingEl (1 + n)]));
      [reflexivity | exact Hsvc | exact H2 | reflexivity]. }
  assert (Hc : messagesContainer both
    = Some (kids ++ [userEl n first; typingEl (1 + n);
                     userEl (2 + n) second; typingEl (3 + n)])).
  { rewrite Hb. unfold awaiting_reply. simpl. rewrite <- app_assoc.
    reflexivity. }
  assert (Hn : next_uid both = (4 + n)%nat) by (rewrite Hb; reflexivity).
  assert (Ha : answered
    = with_tasks
        (tasks both
         ++ [renderMarkdown_awaiting (4 + n) response
               (awaited_in_try (typingEl (3 + n)))])
        (with_messagesContainer
           (Some (kids ++ [userEl n first; typingEl (1 + n);
                           userEl (2 + n) second]))
           (with_next_uid (5 + n) both))).
  { unfold answered, after.
    rewrite (handleMessage_resume_state _ (Fulfilled response) both _ Hc).
    cbn [snd]. rewrite Hn.
    rewrite filter_app, (Hf (3 + n)%nat) by lia.
    simpl filter.
    rewrite !same_node_uid by (simpl; lia). rewrite same_node_refl.
    reflexivity. }
  split; [|split; [|split; [|split; [|split]]]].
  - unfold children. rewrite Hc. reflexivity.
  - rewrite Hb. unfold awaiting_reply. simpl. rewrite <- app_assoc.
    reflexivity.
  - rewrite Ha. reflexivity.
  - rewrite Ha. reflexivity.
  - unfold after, rendered.
    rewrite (renderMarkdown_fulfilled_state _ _ _ v answered
               (kids ++ [userEl n first; typingEl (1 + n);
                         userEl (2 + n) second]))
      by (rewrite Ha; reflexivity).
    unfold children. simpl. rewrite <- app_assoc. reflexivity.
  - unfold after at 2.
    rewrite (handleMessage_resume_state _ Rejected answered
               (kids ++ [userEl n first; typingEl (1 + n);
                         userEl (2 + n) second]))
      by (rewrite Ha; reflexivity).
    cbn [snd].
    replace (next_uid answered) with (5 + n)%nat by (rewrite Ha; reflexivity).
    rewrite filter_app, (Hf (1 + n)%nat) by lia.
    simpl filter. rewrite same_node_refl.
    rewrite !same_node_uid by (simpl; lia).
    cbn [negb].
    unfold after, rendered.
    erewrite renderMarkdown_fulfilled_state by reflexivity.
    unfold children. simpl. rewrite <- !app_assoc. reflexivity.
Qed.

Lemma submissions_overlap_witness :
  let both :=
    after (handleMessage (lit "Two")) (after (handleMessage (lit "One"))
                                          configured) in
  let answered :=
    after (handleMessage_resume (typingEl 3) (Fulfilled (lit "Second")))
      both in
  let rendered :=
    renderMarkdown_settled 4 (lit "Second") (awaited_in_try (typingEl 3))
      (Fulfilled []) in
  children both
    = [userEl 0 (lit "One"); typingEl 1; userEl 2 (lit "Two"); typingEl 3]
  /\ children answered
     = [userEl 0 (lit "One"); typingEl 1; userEl 2 (lit "Two")]
  /\ children
       (after rendered
          (after (handleMessage_resume (typingEl 1) Rejected) answered))
     = [userEl 0 (lit "One"); userEl 2 (lit "Two");
        errorEl 5 failureText; botEl 4 (lit "Second")].
Proof.
  intros both answered rendered.
  destruct (submissions_overlap (lit "One") (lit "Two") (lit "Second") []
              configured {| service_key := lit "abc123" |} [])
    as (H1 & _ & H3 & _ & _ & H6).
  - vm_compute. reflexivity.
  - vm_compute. discriminate.
  - vm_compute. discriminate.
  - vm_compute. reflexivity.
  - split; constructor.
  - split; [exact H1|]. split; [exact H3 | exact H6].
Defined.

(* ================================================================== *)
(** * Typing indicators and pending calls *)
(* ================================================================== *)

Lemma in_drop_nth {A} (x t : A) n l :
  In x l -> nth_error l n = Some t -> t <> x -> In x (drop_nth n l).
Proof.
  revert l. induction n as [|n IH]; intros [|a l] Hin Hn Hne;
    simpl in *; try contradiction.
  - injection Hn as ->. destruct Hin as [E|Hin]; [contradiction | exact Hin].
  - destruct Hin as [E|Hin]; [left; exact E | right; apply IH; assumption].
Qed.

Lemma indicators_appendChild_message el p :
  className el <> typing_indicator ->
  indicators_pending p -> indicators_pending (appendChild el p).
Proof.
  intros Hc H. unfold indicators_pending, appendChild, children in *.
  destruct (messagesContainer p) as [kids|] eqn:E; simpl;
    [|rewrite E; exact H].
  intros e He Hcl. apply in_app_or in He as [He | [<- | []]].
  - exact (H e He Hcl).
  - contradiction.
Qed.

Lemma indicators_create_append c i :
  c <> typing_indicator ->
  preserves indicators_pending
    (bind (createElement c i) (fun el => assign (appendChild el))).
Proof.
  intros Hc p H.
  apply (indicators_appendChild_message
           {| uid := next_uid p; className := c; inner := i |}
           (with_next_uid (S (next_uid p)) p) Hc).
  exact H.
Qed.

(** The indicator is shown and its call recorded as waiting. *)
Lemma indicators_show_and_wait prompt :
  preserves indicators_pending
    (bind (createElement typing_indicator Dots)
       (fun el => bind (assign (appendChild el))
          (fun _ => bind (call prompt)
             (fun _ => suspend (handleMessage_awaiting el))))).
Proof.
  intros p H. unfold indicators_pending, children in *.
  destruct p as [k g [kids|] f c0 d1 d2 h w t n r ts co sv]; simpl in *.
  - intros e He Hcl. apply in_or_app.
    apply in_app_or in He as [He | [<- | []]].
    + left. exact (H e He Hcl).
    + right. left. reflexivity.
  - intros e [].
Qed.

Lemma indicators_remove el : preserves indicators_pending (remove el).
Proof.
  unfold remove. apply preserves_assign. intros p H.
  unfold indicators_pending, children in *.
  destruct (messagesContainer p) as [kids|] eqn:E; simpl;
    [|rewrite E; exact H].
  intros e He. apply filter_In in He as [He _]. exact (H e He).
Qed.

Lemma indicators_suspend t : preserves indicators_pending (suspend t).
Proof.
  unfold suspend. apply preserves_assign. intros p H.
  unfold indicators_pending, children in *. simpl.
  intros e He Hcl. apply in_or_app. left. exact (H e He Hcl).
Qed.

Create HintDb indicators.
#[local] Hint Resolve indicators_remove indicators_suspend : indicators.

Ltac indicators_side :=
  unfold indicators_pending, children in *; simpl;
  assumption || (intros ? []).

Ltac keeps_indicators :=
  preserves_with
    ltac:(first [ apply indicators_show_and_wait
                | apply indicators_create_append; discriminate ])
    ltac:(eauto with indicators) indicators_side.

Lemma indicators_createElement c i :
  preserves indicators_pending (createElement c i).
Proof.
  unfold createElement.
  preserves_with fail ltac:(eauto with indicators) indicators_side.
Qed.

#[local] Hint Resolve indicators_createElement : indicators.

Lemma indicators_addMessageToChat m a :
  preserves indicators_pending (addMessageToChat m a).
Proof. unfold addMessageToChat. keeps_indicators. Qed.

Lemma indicators_addErrorMessage m :
  preserves indicators_pending (addErrorMessage m).
Proof. unfold addErrorMessage. keeps_indicators. Qed.

#[local] Hint Resolve indicators_addMessageToChat indicators_addErrorMessage
  : indicators.

Lemma indicators_handleMessage message :
  preserves indicators_pending (handleMessage message).
Proof.
  unfold handleMessage, toggleSuggestedActions, now. keeps_indicators.
Qed.

Lemma indicators_translate_settled s :
  preserves indicators_pending (translate_settled s).
Proof. unfold translate_settled, now, console_error. keeps_indicators. Qed.

Lemma indicators_renderMarkdown_settled n src a s :
  preserves indicators_pending (renderMarkdown_settled n src a s).
Proof.
  unfold renderMarkdown_settled, messagesContainer_appendChild, await.
  cbv zeta.
  preserves_with fail ltac:(eauto with indicators) indicators_side;
    apply preserves_assign; intros p H;
    (apply indicators_appendChild_message; [discriminate | exact H]).
Qed.

Lemma indicators_saveSettings_settled snapshot s :
  preserves indicators_pending (saveSettings_settled snapshot s).
Proof.
  unfold saveSettings_settled, await, initializeGeminiService, native,
    console_error.
  keeps_indicators.
Qed.

Lemma indicators_languageSelected text language :
  preserves indicators_pending (languageSelected text language).
Proof. unfold languageSelected, call. keeps_indicators. Qed.

#[local] Hint Resolve indicators_handleMessage indicators_translate_settled
  indicators_renderMarkdown_settled indicators_saveSettings_settled
  indicators_languageSelected : indicators.

(** The continuation of [handleMessage] starts by removing its indicator,
    on both of its paths. *)
Lemma handleMessage_resume_removes_first ind s p :
  handleMessage_resume ind s p
  = bind (remove ind)
      (fun _ =>
         match s with
         | Fulfilled response =>
             bind now (fun t =>
               addMessageToChat
                 {| role := bot; content := response; timestamp := t |}
                 (awaited_in_try ind))
         | Rejected => addErrorMessage failureText
         end) p.
Proof.
  unfold handleMessage_resume, addMessageToChat, addErrorMessage,
    createElement, suspend, now, remove.
  open_plugin p. destruct s, messagesContainer0; reflexivity.
Qed.

(** A call that settles takes its own indicator with it. *)
Lemma indicators_settle_call n ind s p :
  nth_error (tasks p) n = Some (handleMessage_awaiting ind) ->
  indicators_pending p ->
  indicators_pending
    (snd (bind (take_task n) (fun _ => handleMessage_resume ind s) p)).
Proof.
  intros Hn H.
  unfold bind at 1, take_task, bind, this, assign, ret. cbv beta iota.
  rewrite handleMessage_resume_removes_first.
  set (rest := fun _ : unit =>
         match s with
         | Fulfilled response =>
             bind now (fun t =>
               addMessageToChat
                 {| role := bot; content := response; timestamp := t |}
                 (awaited_in_try ind))
         | Rejected => addErrorMessage failureText
         end).
  assert (Hrest : preserves indicators_pending (rest tt)).
  { unfold rest. destruct s; unfold now; keeps_indicators. }
  unfold bind, remove, assign. cbv beta iota. apply Hrest.
  unfold indicators_pending, children in *. simpl.
  destruct (messagesContainer p) as [kids|] eqn:E; simpl;
    [|rewrite E; intros ? []].
  intros e He Hcl. apply filter_In in He as [He Hs].
  apply (in_drop_nth _ (handleMessage_awaiting ind) n (tasks p));
    [exact (H e He Hcl) | exact Hn |].
  intro Eq. injection Eq as ->. rewrite same_node_refl in Hs.
  discriminate.
Qed.

(** Other work that settles leaves the indicators with their calls. *)
Lemma indicators_take_other n t p :
  nth_error (tasks p) n = Some t ->
  (forall ind, t <> handleMessage_awaiting ind) ->
  indicators_pending p ->
  indicators_pending (snd (take_task n p)).
Proof.
  intros Hn Ht H. unfold take_task, bind, this, assign, ret. simpl.
  unfold indicators_pending, children in *. simpl.
  intros e He Hcl.
  exact (in_drop_nth _ t n (tasks p) (H e He Hcl) Hn (Ht e)).
Qed.

Lemma indicators_take_other_then {B} n t (k : option Task -> M B) p :
  nth_error (tasks p) n = Some t ->
  (forall ind, t <> handleMessage_awaiting ind) ->
  (forall a, preserves indicators_pending (k a)) ->
  indicators_pending p ->
  indicators_pending (snd (bind (take_task n) k p)).
Proof.
  intros Hn Ht Hk H. unfold bind.
  pose proof (indicators_take_other n t p Hn Ht H) as Hq.
  destruct (take_task n p) as [[a|err] q]; simpl in Hq.
  - exact (Hk a q Hq).
  - exact Hq.
Qed.

Lemma indicators_dispatch e : preserves indicators_pending (dispatch e).
Proof.
  destruct e as [ | | | b | text | key shift | v | f | t | n s | n l];
    try (unfold dispatch, inputField_keydown, sendButton_click,
           actionButton_click, showLanguageSelectionModal,
           toggleChatContainer, updateChatHeader, toggleSuggestedActions,
           apiKey_onChange, native, console_error;
         keeps_indicators; fail).
  - intros p H. unfold dispatch, bind at 1, this at 1.
    destruct (nth_error (tasks p) n)
      as [[ind | | | text | el src a | snapshot]|] eqn:E;
      try exact H.
    + exact (indicators_settle_call n ind s p E H).
    + apply (indicators_take_other_then n translate_awaiting); auto.
      * intros ? ?; discriminate.
      * intro. apply indicators_translate_settled.
    + apply (indicators_take_other_then n vaultRead_awaiting); auto.
      * intros ? ?; discriminate.
      * intro. destruct s; [|intros q Hq; exact Hq].
        unfold vaultRead_settled, await. keeps_indicators.
    + apply (indicators_take_other_then n
               (renderMarkdown_awaiting el src a)); auto.
      * intros ? ?; discriminate.
      * intro. apply indicators_renderMarkdown_settled.
    + apply (indicators_take_other_then n
               (saveSettings_awaiting snapshot)); auto.
      * intros ? ?; discriminate.
      * intro. apply indicators_saveSettings_settled.
  - intros p H. unfold dispatch, languageModal_accept, bind at 1, this at 1.
    destruct (nth_error (tasks p) n)
      as [[ind | | | text | el src a | snapshot]|] eqn:E;
      try exact H.
    apply (indicators_take_other_then n (languageModal_open text)); auto.
    + intros ? ?; discriminate.
    + intro. apply indicators_languageSelected.
Qed.

(** X20. From [onload] on, whatever happens, every typing indicator in
    the panel belongs to a call that has not settled: none is left behind
    by a call that has succeeded or failed. *)
Theorem indicators_always_pending (stored : option jsstring)
    (es : list Event) :
  indicators_pending (run es (after (onload stored) constructed)).
Proof.
  apply (run_preserves indicators_pending indicators_dispatch).
  destruct (onload_ends_with_addChatContainer stored) as [q ->].
  intros e [].
Qed.

(* ================================================================== *)
(** * Exceptions stay inside *)
(* ================================================================== *)

Lemma returns_ret {A} (a : A) : returns (ret a).
Proof. intro p. exists a. reflexivity. Qed.

Lemma returns_this : returns this.
Proof. intro p. exists p. reflexivity. Qed.

Lemma returns_assign f : returns (assign f).
Proof. intro p. exists tt. reflexivity. Qed.

Lemma returns_bind {A B} (m : M A) (k : A -> M B) :
  returns m -> (forall a, returns (k a)) -> returns (bind m k).
Proof.
  intros Hm Hk p. unfold bind. destruct (Hm p) as [a Ha].
  destruct (m p) as [[a'|e] p']; simpl in Ha; [|discriminate].
  apply Hk.
Qed.

(** A [try] whose handler returns normally returns normally, whatever
    its body does. *)
Lemma returns_try_catch {A} (m : M A) h :
  (forall e, returns (h e)) -> returns (try_catch m h).
Proof.
  intros Hh p. unfold try_catch.
  destruct (m p) as [[a|e] p']; simpl.
  - exists a. reflexivity.
  - apply Hh.
Qed.

Create HintDb returns.
#[local] Hint Resolve returns_ret returns_this returns_assign : returns.

Ltac returns_step :=
  match goal with
  | |- returns (bind _ _) => apply returns_bind; [|intro]
  | |- returns (try_catch _ _) => apply returns_try_catch; intro
  | |- returns (ret _) => apply returns_ret
  | |- returns this => apply returns_this
  | |- returns (assign _) => apply returns_assign
  | |- returns (match ?x with _ => _ end) => destruct x
  | |- returns (if ?x then _ else _) => destruct x
  | |- returns _ => solve [eauto with returns]
  end.

Ltac returns_normally := repeat returns_step.

Lemma returns_createElement c i : returns (createElement c i).
Proof. unfold createElement. returns_normally. Qed.

Lemma returns_remove el : returns (remove el).
Proof. unfold remove. returns_normally. Qed.

#[local] Hint Resolve returns_createElement returns_remove : returns.

Lemma returns_suspend t : returns (suspend t).
Proof. unfold suspend. returns_normally. Qed.

#[local] Hint Resolve returns_suspend : returns.

Lemma returns_addMessageToChat m a : returns (addMessageToChat m a).
Proof. unfold addMessageToChat. returns_normally. Qed.

Lemma returns_addErrorMessage m : returns (addErrorMessage m).
Proof. unfold addErrorMessage. returns_normally. Qed.

#[local] Hint Resolve returns_addMessageToChat returns_addErrorMessage
  : returns.

Lemma returns_handleMessage message : returns (handleMessage message).
Proof.
  unfold handleMessage, toggleSuggestedActions, now, call.
  returns_normally.
Qed.

Lemma returns_handleMessage_resume el s : returns (handleMessage_resume el s).
Proof. unfold handleMessage_resume. returns_normally. Qed.

Lemma returns_translate_settled s : returns (translate_settled s).
Proof.
  unfold translate_settled, now, console_error. returns_normally.
Qed.

Lemma returns_initializeGeminiService : returns initializeGeminiService.
Proof.
  intro p. exists tt. apply initializeGeminiService_returns.
Qed.

#[local] Hint Resolve returns_handleMessage returns_handleMessage_resume
  returns_translate_settled returns_initializeGeminiService : returns.

(** What is awaited and has resolved goes on normally. *)
Lemma returns_vaultRead_fulfilled v : returns (vaultRead_settled (Fulfilled v)).
Proof. unfold vaultRead_settled, await. returns_normally. Qed.

Lemma returns_saveSettings_fulfilled snapshot v :
  returns (saveSettings_settled snapshot (Fulfilled v)).
Proof. unfold saveSettings_settled, await. returns_normally. Qed.

(** A rendering that fails under the [try] of [handleMessage] is caught. *)
Lemma returns_renderMarkdown_caught n src ind s :
  returns (renderMarkdown_settled n src (awaited_in_try ind) s).
Proof. unfold renderMarkdown_settled. cbv zeta. returns_normally. Qed.

#[local] Hint Resolve returns_vaultRead_fulfilled
  returns_saveSettings_fulfilled returns_renderMarkdown_caught : returns.

Lemma returns_take_task n : returns (take_task n).
Proof. unfold take_task. returns_normally. Qed.

Lemma settled_returns n (k : M unit) p :
  returns k -> completion (bind (take_task n) (fun _ => k)) p = Normal tt.
Proof.
  intro Hk.
  destruct (returns_bind (take_task n) (fun _ => k) (returns_take_task n)
              (fun _ => Hk) p) as [[] Hp].
  exact Hp.
Qed.

(** X21. With the panel built, no listener of the panel lets an exception
    out, and no call that fails does: a click, a key, a choice in the
    picker, the opening of another note, and the settling of anything
    awaited return normally, as long as what has failed is awaited under a
    [try] or has a [catch] chained ([handled]). The listener of the key
    field in the settings is set apart: it can throw. *)
Theorem panel_listeners_never_throw (e : Event) (p : Plugin) :
  panel_built p ->
  (forall v, e <> ChangeKey v) ->
  (forall n t, e = Settle n Rejected ->
     nth_error (tasks p) n = Some t -> handled t = true) ->
  completion (dispatch e) p = Normal tt.
Proof.
  intros Hb H Hh.
  destruct e as [ | | | b | text | key shift | v | f | t | n s | n l];
    try (match goal with
         | |- completion (dispatch ?e') _ = _ =>
             assert (R : returns (dispatch e'))
               by (unfold dispatch, languageModal_accept, languageSelected,
                     inputField_keydown, sendButton_click,
                     actionButton_click, showLanguageSelectionModal,
                     toggleChatContainer, updateChatHeader,
                     toggleSuggestedActions, take_task, call;
                   returns_normally)
         end;
         destruct (R p) as [[] Hp]; exact Hp).
  - contradiction (H v). reflexivity.
  - unfold completion at 1, dispatch, bind at 1, this at 1.
    pose proof (fun t => Hh n t) as Hn.
    destruct (nth_error (tasks p) n)
      as [[ind | | | text | el src a | snapshot]|] eqn:E;
      try reflexivity; try (apply settled_returns; auto with returns; fail).
    + destruct s as [v|]; [apply settled_returns; auto with returns|].
      specialize (Hn vaultRead_awaiting eq_refl eq_refl). discriminate.
    + destruct a as [|ind]; [|apply settled_returns; auto with returns].
      destruct s as [v|].
      * unfold panel_built in Hb.
        destruct (messagesContainer p) as [kids|] eqn:Ek;
          [|contradiction Hb; reflexivity].
        unfold completion, take_task, renderMarkdown_settled,
          messagesContainer_appendChild, await, bind, this, assign, ret.
        simpl. rewrite Ek. reflexivity.
      * specialize (Hn (renderMarkdown_awaiting el src dropped) eq_refl
                      eq_refl).
        discriminate.
    + destruct s as [v|]; [apply settled_returns; auto with returns|].
      specialize (Hn (saveSettings_awaiting snapshot) eq_refl eq_refl).
      discriminate.
Qed.

Lemma panel_listeners_never_throw_witness :
  let waiting := run [Type_ (lit "Hello"); ClickSend] opened_on_note in
  completion (dispatch (Settle 0 Rejected)) waiting = Normal tt
  /\ completion (dispatch (Settle 0 Rejected)) answered_unrendered = Normal tt.
Proof.
  intro waiting. split.
  - apply (panel_listeners_never_throw (Settle 0 Rejected) waiting).
    + unfold panel_built. vm_compute. discriminate.
    + intros v H. discriminate H.
    + intros n t H E. injection H as <-. vm_compute in E.
      injection E as <-. reflexivity.
  - apply (panel_listeners_never_throw (Settle 0 Rejected)
             answered_unrendered).
    + unfold panel_built. vm_compute. discriminate.
    + intros v H. discriminate H.
    + intros n t H E. injection H as <-. vm_compute in E.
      injection E as <-. reflexivity.
Defined.

(** X24. What fails with nobody to handle it: the read of the open note
    (a [then] without [catch]), the save of the settings (awaited in a
    listener without [try]) and the rendering of a translation (the
    promise of [addMessageToChat] is dropped in the [then] callback).
    The rejection escapes and the state stays as it was, the task
    apart. *)
Theorem unhandled_rejections_escape (n : nat) (t : Task) (p : Plugin) :
  nth_error (tasks p) n = Some t ->
  handled t = false ->
  dispatch (Settle n Rejected) p
  = (Throw RejectedPromise, with_tasks (drop_nth n (tasks p)) p).
Proof.
  intros E Hh. unfold dispatch, bind at 1, this at 1. rewrite E.
  destruct t as [ind | | | text | el src [|ind] | snapshot];
    try discriminate Hh; reflexivity.
Qed.

Lemma unhandled_rejections_escape_witness :
  let reading := run [OpenFile (Some note); ClickIcon] configured in
  tasks reading = [vaultRead_awaiting]
  /\ completion (dispatch (Settle 0 Rejected)) reading = Throw RejectedPromise
  /\ currentFileContent (after (dispatch (Settle 0 Rejected)) reading) = None.
Proof.
  intro reading.
  pose proof (unhandled_rejections_escape 0 vaultRead_awaiting reading
                eq_refl eq_refl) as H.
  split; [reflexivity|]. unfold completion, after. rewrite H.
  split; reflexivity.
Defined.

Lemma failed_submission_end_to_end_witness :
  children
    (after (handleMessage_resume (typingEl 1) Rejected)
       (after (handleMessage (lit "Hello")) opened_on_note))
  = [userEl 0 (lit "Hello"); errorEl 2 failureText].
Proof.
  apply (failed_submission_end_to_end (lit "Hello") opened_on_note
           {| service_key := lit "abc123" |} []).
  - vm_compute. reflexivity.
  - vm_compute. discriminate.
  - vm_compute. reflexivity.
  - split; constructor.
Defined.
